(** * Emotional text-to-speech client: PCM decoder and speech request handler

    A shallow embedding of [App.tsx] (the audio utilities [decodeBase64] and
    [decodePcmData], the handlers [handleGenerateSpeech] and [playAudio], the
    controls that invoke them and what the component renders), of [types.ts]
    and of [constants.ts], together with the browser
    primitives these call: [window.atob], the [Int16Array] view constructor,
    [AudioContext.createBuffer] and typed-array element access. *)

From Stdlib Require Import ZArith NArith QArith Qround Bool List String Ascii Lia.
From Stdlib Require Import Strings.Byte.
From Stdlib Require Import Floats.SpecFloat.
Import ListNotations.

Open Scope Z_scope.

(** ** JavaScript values used by the program *)

Module JS.

(** A JavaScript string is a sequence of UTF-16 code units. *)
Definition jsstring := list N.

Definition code_units (s : string) : jsstring :=
  List.map N_of_ascii (list_ascii_of_string s).

(** What a [throw] carries, as far as [catch (err: unknown)] on line 102
    can tell: either an object with [err instanceof Error] (plain [Error],
    [RangeError], [TypeError], a [DOMException], an SDK error), or any
    other value. *)
Inductive Thrown :=
| ErrorInstance (name : string) (message : jsstring)
| OtherValue.

Inductive Result (A : Type) :=
| Ok (a : A)
| Throw (e : Thrown).
Arguments Ok {A} a.
Arguments Throw {A} e.

Definition bind {A B} (r : Result A) (k : A -> Result B) : Result B :=
  match r with
  | Ok a => k a
  | Throw e => Throw e
  end.

(** The value of [a / b] for integers [a >= 0] and [b]: a JavaScript
    Number.  The quotient is kept exact; binary64 rounding of it neither
    changes its integer part nor its order against an integer while [a] is
    below 2^53, which every array length is. *)
Inductive Number :=
| Finite (q : Q)
| PlusInfinity
| NotANumber.

Definition divide (a b : Z) : Number :=
  if b =? 0 then (if a =? 0 then NotANumber else PlusInfinity)
  else Finite (inject_Z a / inject_Z b)%Q.

(** [i < x] for an integer [i], as evaluated by the loop tests. *)
Definition lessThan (i : Z) (x : Number) : bool :=
  match x with
  | Finite q => negb (Qle_bool q (inject_Z i))
  | PlusInfinity => true
  | NotANumber => false
  end.

(** WebIDL conversion of a Number to [unsigned long]: NaN and the
    infinities give 0, otherwise the integer part taken modulo 2^32. *)
Definition integerPart (q : Q) : Z :=
  if Qle_bool 0 q then Qfloor q else Qceiling q.

Definition toUnsignedLong (x : Number) : Z :=
  match x with
  | Finite q => integerPart q mod 2 ^ 32
  | _ => 0
  end.

(** ECMAScript WhiteSpace and LineTerminator code units, the ones
    [String.prototype.trim] strips. *)
Definition isTrimmable (c : N) : bool :=
  ((9 <=? c) && (c <=? 13) || (c =? 32) || (c =? 160) || (c =? 5760)
   || (8192 <=? c) && (c <=? 8202) || (c =? 8232) || (c =? 8233)
   || (c =? 8239) || (c =? 8287) || (c =? 12288) || (c =? 65279))%N.

Fixpoint trimStart (s : jsstring) : jsstring :=
  match s with
  | c :: rest => if isTrimmable c then trimStart rest else s
  | [] => []
  end.

Definition trim (s : jsstring) : jsstring :=
  rev (trimStart (rev (trimStart s))).

(** Truthiness of a string or of an optional string: [undefined] and the
    empty string are falsy. *)
Definition truthy (s : jsstring) : bool :=
  match s with [] => false | _ => true end.

Definition truthyOpt (s : option jsstring) : bool :=
  match s with Some s => truthy s | None => false end.

End JS.
Import JS.

Notation "x <- r ;; k" := (JS.bind r (fun x => k))
  (at level 61, r at next level, right associativity).

(** ** Sample arithmetic: binary64 Numbers stored into a [Float32Array] *)

Module Float.

(** The Number holding an integer (exact below 2^53). *)
Definition ofInteger (z : Z) : spec_float := binary_normalize 53 1024 z 0 false.

(** Number division, IEEE 754 binary64, round to nearest even. *)
Definition div (x y : spec_float) : spec_float := SFdiv 53 1024 x y.

(** Storing a Number into a [Float32Array] element rounds it to binary32. *)
Definition toFloat32 (x : spec_float) : spec_float :=
  match x with
  | S754_finite s m e => binary_normalize 24 128 (cond_Zopp s (Zpos m)) e s
  | _ => x
  end.

(** The real number a float stands for. *)
Definition toQ (x : spec_float) : option Q :=
  match x with
  | S754_zero _ => Some 0%Q
  | S754_finite s m e =>
      Some (match e with
            | Zneg p => Qmake (cond_Zopp s (Zpos m)) (2 ^ p)
            | _ => inject_Z (cond_Zopp s (Zpos m) * 2 ^ e)
            end)
  | _ => None
  end.

End Float.

(** ** Browser primitives *)

Module Web.

(** Messages of the exceptions the platform raises are implementation
    defined; the model keeps them as data of the platform. *)
Record Messages := {
  invalidCharacterMessage : jsstring;
  rangeErrorMessage : jsstring;
  notSupportedMessage : jsstring;
  indexSizeMessage : jsstring
}.

(** *** [window.atob]: forgiving-base64 decode *)

Definition isAsciiWhitespace (c : N) : bool :=
  ((c =? 9) || (c =? 10) || (c =? 12) || (c =? 13) || (c =? 32))%N.

Definition base64Value (c : N) : option N :=
  (if (65 <=? c) && (c <=? 90) then Some (c - 65)
   else if (97 <=? c) && (c <=? 122) then Some (c - 71)
   else if (48 <=? c) && (c <=? 57) then Some (c + 4)
   else if c =? 43 then Some 62
   else if c =? 47 then Some 63
   else None)%N.

(** When the length is a multiple of four, one or two trailing [=] are
    removed. *)
Definition stripPadding (s : jsstring) : jsstring :=
  if (N.of_nat (List.length s) mod 4 =? 0)%N then
    match rev s with
    | 61%N :: 61%N :: r => rev r
    | 61%N :: r => rev r
    | _ => s
    end
  else s.

Fixpoint sextets (s : jsstring) : option (list N) :=
  match s with
  | [] => Some []
  | c :: rest =>
      match base64Value c, sextets rest with
      | Some v, Some vs => Some (v :: vs)
      | _, _ => None
      end
  end.

(** Four sextets give three bytes; a tail of three gives two bytes and a
    tail of two gives one, the left-over bits being discarded. *)
Fixpoint octets (vs : list N) : list N :=
  (match vs with
   | a :: b :: c :: d :: rest =>
       (a * 4 + b / 16) :: ((b mod 16) * 16 + c / 4) :: ((c mod 4) * 64 + d)
         :: octets rest
   | [a; b; c] => [a * 4 + b / 16; (b mod 16) * 16 + c / 4]
   | [a; b] => [a * 4 + b / 16]
   | _ => []
   end)%N.

Definition atob (m : Messages) (data : jsstring) : Result jsstring :=
  let data := filter (fun c => negb (isAsciiWhitespace c)) data in
  let data := stripPadding data in
  if (N.of_nat (List.length data) mod 4 =? 1)%N then
    Throw (ErrorInstance "InvalidCharacterError" (invalidCharacterMessage m))
  else
    match sextets data with
    | None => Throw (ErrorInstance "InvalidCharacterError" (invalidCharacterMessage m))
    | Some vs => Ok (octets vs)
    end.

(** *** Typed arrays *)

(** Storing a Number into a [Uint8Array] element keeps it modulo 256. *)
Definition toUint8 (n : N) : byte :=
  match Byte.of_N (n mod 256) with
  | Some b => b
  | None => x00
  end.

(** Two's complement reading of a 16-bit pattern. *)
Definition toInt16 (w : Z) : Z :=
  let w := w mod 65536 in
  if w <? 32768 then w else w - 65536.

(** The elements an [Int16Array] view shows over a byte buffer, in the
    byte order of the host, which is little-endian. *)
Fixpoint int16Elements (bytes : list byte) : list Z :=
  match bytes with
  | lo :: hi :: rest =>
      toInt16 (Z.of_N (Byte.to_N lo) + 256 * Z.of_N (Byte.to_N hi))
        :: int16Elements rest
  | _ => []
  end.

(** [new Int16Array(buffer)] raises a RangeError unless the byte length of
    the buffer is a multiple of 2. *)
Definition newInt16Array (m : Messages) (buffer : list byte) : Result (list Z) :=
  if Z.of_nat (List.length buffer) mod 2 =? 0 then Ok (int16Elements buffer)
  else Throw (ErrorInstance "RangeError" (rangeErrorMessage m)).

(** Reading past the end of a typed array gives [undefined]. *)
Definition getElement {A} (a : list A) (k : Z) : option A :=
  if k <? 0 then None else nth_error a (Z.to_nat k).

Fixpoint replaceNth {A} (n : nat) (a : list A) (v : A) : list A :=
  match a, n with
  | [], _ => []
  | _ :: rest, O => v :: rest
  | x :: rest, S n' => x :: replaceNth n' rest v
  end.

(** Writing past the end of a typed array does nothing. *)
Definition setElement {A} (a : list A) (k : Z) (v : A) : list A :=
  if k <? 0 then a else replaceNth (Z.to_nat k) a v.

(** *** Web Audio *)

(** The limits of [createBuffer] are those of the implementation: at least
    32 channels and the rates 8000 to 96000 have to be supported. *)
Record AudioContext := {
  maxChannels : Z;
  minSampleRate : Z;
  maxSampleRate : Z
}.

Record AudioBuffer := {
  sampleRate : Z;
  channels : list (list spec_float)
}.

Definition numberOfChannels (b : AudioBuffer) : Z :=
  Z.of_nat (List.length (channels b)).

(** [ctx.createBuffer(numberOfChannels, length, sampleRate)]: the first two
    arguments are converted to [unsigned long]; a NotSupportedError is
    raised when one of the arguments is zero or out of its range; the
    buffer is created silent. *)
Definition createBuffer (m : Messages) (ctx : AudioContext)
    (numberOfChannels : Z) (length : Number) (sampleRate : Z)
  : Result AudioBuffer :=
  let n := numberOfChannels mod 2 ^ 32 in
  let len := toUnsignedLong length in
  if (1 <=? n) && (n <=? maxChannels ctx) && (1 <=? len)
     && (minSampleRate ctx <=? sampleRate) && (sampleRate <=? maxSampleRate ctx)
  then Ok {| sampleRate := sampleRate;
             channels := repeat (repeat (S754_zero false) (Z.to_nat len)) (Z.to_nat n) |}
  else Throw (ErrorInstance "NotSupportedError" (notSupportedMessage m)).

(** [buffer.getChannelData(channel)] raises an IndexSizeError for a channel
    the buffer does not have. *)
Definition getChannelData (m : Messages) (b : AudioBuffer) (channel : Z)
  : Result (list spec_float) :=
  match getElement (channels b) channel with
  | Some d => Ok d
  | None => Throw (ErrorInstance "IndexSizeError" (indexSizeMessage m))
  end.

(** The array [getChannelData] returns is a view of the buffer: writing to
    it writes to the buffer. *)
Definition setChannelData (b : AudioBuffer) (channel : Z) (d : list spec_float)
  : AudioBuffer :=
  {| sampleRate := sampleRate b; channels := setElement (channels b) channel d |}.

End Web.
Import Web.

(** ** Audio utility functions ([App.tsx], lines 10 to 39) *)

(** [decodeBase64]: the characters of [window.atob(base64)] copied one by one
    into a [Uint8Array] of the same length. *)
Definition decodeBase64 (m : Messages) (base64 : jsstring) : Result (list byte) :=
  binaryString <- atob m base64 ;;
  Ok (List.map toUint8 binaryString).

(** The right-hand side of line 35, [dataInt16[k] / 32768.0], as it reads
    back from the [Float32Array]: an index outside the view reads
    [undefined], and [undefined / 32768.0] is NaN. *)
Definition sampleOf (element : option Z) : spec_float :=
  match element with
  | Some v => Float.toFloat32 (Float.div (Float.ofInteger v) (Float.ofInteger 32768))
  | None => S754_nan
  end.

(** The inner loop, lines 34 to 36.  [fuel] bounds the number of
    iterations; the loop leaves through its test. *)
Fixpoint fillChannel (fuel : nat) (i : Z) (frameCount : Number)
    (dataInt16 : list Z) (numChannels channel : Z)
    (channelData : list spec_float) : list spec_float :=
  match fuel with
  | O => channelData
  | S fuel' =>
      if lessThan i frameCount then
        fillChannel fuel' (i + 1) frameCount dataInt16 numChannels channel
          (setElement channelData i
             (sampleOf (getElement dataInt16 (i * numChannels + channel))))
      else channelData
  end.

(** The outer loop, lines 32 to 37. *)
Fixpoint fillBuffer (m : Messages) (fuel : nat) (channel : Z) (frameCount : Number)
    (dataInt16 : list Z) (numChannels : Z) (buffer : AudioBuffer)
  : Result AudioBuffer :=
  match fuel with
  | O => Ok buffer
  | S fuel' =>
      if channel <? numChannels then
        channelData <- getChannelData m buffer channel ;;
        let channelData :=
          fillChannel (List.length dataInt16) 0 frameCount dataInt16
            numChannels channel channelData in
        fillBuffer m fuel' (channel + 1) frameCount dataInt16 numChannels
          (setChannelData buffer channel channelData)
      else Ok buffer
  end.

(** [decodePcmData], lines 22 to 39.  [data] is the array [decodeBase64]
    built: it owns its buffer, so that the view of line 28 spans exactly its
    bytes.  The function being [async], what it throws rejects its promise and
    is thrown again by the [await] of line 99. *)
Definition decodePcmData (m : Messages) (data : list byte) (ctx : AudioContext)
    (sampleRate numChannels : Z) : Result AudioBuffer :=
  dataInt16 <- newInt16Array m data ;;
  let frameCount := divide (Z.of_nat (List.length dataInt16)) numChannels in
  buffer <- createBuffer m ctx numChannels frameCount sampleRate ;;
  fillBuffer m (Z.to_nat numChannels) 0 frameCount dataInt16 numChannels buffer.

(** ** [types.ts] and [constants.ts] *)

Inductive Emotion := Happy | Sad | Fear | Frightened | Angry | Excited.

(** The string each member of the enum stands for at run time. *)
Definition emotionValue (e : Emotion) : string :=
  match e with
  | Happy => "Happy"
  | Sad => "Sad"
  | Fear => "Fear"
  | Frightened => "Frightened"
  | Angry => "Angry"
  | Excited => "Excited"
  end.

Record EmotionOption := {
  id : Emotion;
  label : string;
  promptPrefix : string
}.

Inductive Voice := Kore | Yadu.

Definition voiceValue (v : Voice) : string :=
  match v with
  | Kore => "Kore"
  | Yadu => "Yadu"
  end.

(** The fields [id] and [label] of [VoiceOption] carry a prefix here, the
    names being taken by [EmotionOption]. *)
Record VoiceOption := {
  voiceId : Voice;
  voiceLabel : string;
  voiceName : Voice
}.

Definition EMOTIONS : list EmotionOption :=
  [ {| id := Happy; label := "Happy"; promptPrefix := "Say cheerfully" |};
    {| id := Sad; label := "Sad"; promptPrefix := "Say mournfully" |};
    {| id := Fear; label := "Fearful"; promptPrefix := "Say with fear" |};
    {| id := Frightened; label := "Frightened";
       promptPrefix := "Say in a frightened tone" |};
    {| id := Angry; label := "Angry"; promptPrefix := "Say angrily" |};
    {| id := Excited; label := "Excited"; promptPrefix := "Say excitedly" |} ].

Definition VOICES : list VoiceOption :=
  [ {| voiceId := Kore; voiceLabel := "Female"; voiceName := Kore |};
    {| voiceId := Yadu; voiceLabel := "Indian Male"; voiceName := Yadu |} ].

(** [a === b] on two members of the enum compares their strings. *)
Definition emotionStrictEquals (a b : Emotion) : bool :=
  String.eqb (emotionValue a) (emotionValue b).

(** ** The [App] component: state, collaborators and handlers *)

(** The state variables of lines 45 to 51 and the ref of line 53. *)
Record State := {
  text : jsstring;
  selectedEmotion : Emotion;
  selectedVoice : Voice;
  speakingRate : Q;
  isLoading : bool;
  error : option jsstring;
  audioBuffer : option AudioBuffer;
  audioContextRef : option AudioContext
}.

(** The argument of [ai.models.generateContent], lines 74 to 86, with the key
    the client was built from on line 66. *)
Record Request := {
  apiKey : option jsstring;
  model : string;
  prompt : jsstring;
  responseModalities : list string;
  requestSpeakingRate : Q;
  requestVoiceName : Voice
}.

(** The part of the response line 88 looks at; every level may be missing. *)
Record Blob := { data : option jsstring }.
Record Part := { inlineData : option Blob }.
Record Content := { parts : option (list Part) }.
Record Candidate := { content : option Content }.
Record Response := { candidates : option (list Candidate) }.

(** What the handler does to the outside, in order. *)
Inductive Event :=
| ServiceCall (request : Request)
| AudioContextCreated
| DecodingStarted (payload : jsstring)
| ConsoleError (err : Thrown)
| PlaybackStarted (buffer : AudioBuffer).

(** The component instance: its state and what it has done so far. *)
Record World := {
  state : State;
  trace : list Event
}.

(** The collaborators: the build-time configuration, the speech service (what
    the promise of [generateContent] settles to) and the browser. *)
Record Env := {
  API_KEY : option jsstring;
  generateContent : Request -> Result Response;
  newAudioContext : Z -> Result AudioContext;
  messages : Messages
}.

(** *** Setters *)

Definition onState (f : State -> State) (w : World) : World :=
  {| state := f (state w); trace := trace w |}.

Definition emit (e : Event) (w : World) : World :=
  {| state := state w; trace := trace w ++ [e] |}.

Definition setText (v : jsstring) : World -> World :=
  onState (fun s =>
    {| text := v; selectedEmotion := selectedEmotion s;
       selectedVoice := selectedVoice s; speakingRate := speakingRate s;
       isLoading := isLoading s; error := error s;
       audioBuffer := audioBuffer s; audioContextRef := audioContextRef s |}).

Definition setSelectedEmotion (v : Emotion) : World -> World :=
  onState (fun s =>
    {| text := text s; selectedEmotion := v;
       selectedVoice := selectedVoice s; speakingRate := speakingRate s;
       isLoading := isLoading s; error := error s;
       audioBuffer := audioBuffer s; audioContextRef := audioContextRef s |}).

Definition setSelectedVoice (v : Voice) : World -> World :=
  onState (fun s =>
    {| text := text s; selectedEmotion := selectedEmotion s;
       selectedVoice := v; speakingRate := speakingRate s;
       isLoading := isLoading s; error := error s;
       audioBuffer := audioBuffer s; audioContextRef := audioContextRef s |}).

Definition setSpeakingRate (v : Q) : World -> World :=
  onState (fun s =>
    {| text := text s; selectedEmotion := selectedEmotion s;
       selectedVoice := selectedVoice s; speakingRate := v;
       isLoading := isLoading s; error := error s;
       audioBuffer := audioBuffer s; audioContextRef := audioContextRef s |}).

Definition setIsLoading (v : bool) : World -> World :=
  onState (fun s =>
    {| text := text s; selectedEmotion := selectedEmotion s;
       selectedVoice := selectedVoice s; speakingRate := speakingRate s;
       isLoading := v; error := error s;
       audioBuffer := audioBuffer s; audioContextRef := audioContextRef s |}).

Definition setError (v : option jsstring) : World -> World :=
  onState (fun s =>
    {| text := text s; selectedEmotion := selectedEmotion s;
       selectedVoice := selectedVoice s; speakingRate := speakingRate s;
       isLoading := isLoading s; error := v;
       audioBuffer := audioBuffer s; audioContextRef := audioContextRef s |}).

Definition setAudioBuffer (v : option AudioBuffer) : World -> World :=
  onState (fun s =>
    {| text := text s; selectedEmotion := selectedEmotion s;
       selectedVoice := selectedVoice s; speakingRate := speakingRate s;
       isLoading := isLoading s; error := error s;
       audioBuffer := v; audioContextRef := audioContextRef s |}).

Definition setAudioContextRef (v : option AudioContext) : World -> World :=
  onState (fun s =>
    {| text := text s; selectedEmotion := selectedEmotion s;
       selectedVoice := selectedVoice s; speakingRate := speakingRate s;
       isLoading := isLoading s; error := error s;
       audioBuffer := audioBuffer s; audioContextRef := v |}).

(** *** The body of the [try] block: computations that change the world and
    may throw, the world being kept when they do. *)

Definition M (A : Type) : Type := World -> Result A * World.

Definition ret {A} (a : A) : M A := fun w => (Ok a, w).

Definition throw {A} (e : Thrown) : M A := fun w => (Throw e, w).

Definition andThen {A B} (c : M A) (k : A -> M B) : M B :=
  fun w =>
    match c w with
    | (Ok a, w') => k a w'
    | (Throw e, w') => (Throw e, w')
    end.

Definition lift {A} (r : Result A) : M A := fun w => (r, w).

Definition perform (f : World -> World) : M unit := fun w => (Ok tt, f w).

Definition readState : M State := fun w => (Ok (state w), w).

Notation "x <~ c ;; k" := (andThen c (fun x => k))
  (at level 61, c at next level, right associativity).
Notation "c ;;; k" := (andThen c (fun _ => k))
  (at level 61, right associativity).

Definition newError (message : string) : Thrown :=
  ErrorInstance "Error" (code_units message).

(** Lines 66 to 86, up to the point where the call is issued and awaited.
    The constructor of line 66 only records its options (the key is not empty
    here); the request keeps the key it was given. *)
Definition issueRequest (env : Env) : M Request :=
  s <~ readState ;;
  emotionOption <~
    match find (fun e => emotionStrictEquals (id e) (selectedEmotion s)) EMOTIONS with
    | Some o => ret o
    | None => throw (newError "Invalid emotion selected.")
    end ;;
  let prompt := code_units (promptPrefix emotionOption) ++ code_units ": " ++ text s in
  let request :=
    {| apiKey := API_KEY env;
       model := "gemini-2.5-flash-preview-tts";
       prompt := prompt;
       responseModalities := ["AUDIO"%string];
       requestSpeakingRate := speakingRate s;
       requestVoiceName := selectedVoice s |} in
  perform (emit (ServiceCall request)) ;;;
  ret request.

(** Line 88: [response.candidates?.[0]?.content?.parts?.[0]?.inlineData?.data]. *)
Definition chain {A B} (o : option A) (f : A -> option B) : option B :=
  match o with
  | Some a => f a
  | None => None
  end.

Definition base64AudioOf (response : Response) : option jsstring :=
  chain (candidates response) (fun cs =>
  chain (nth_error cs 0) (fun c =>
  chain (content c) (fun ct =>
  chain (parts ct) (fun ps =>
  chain (nth_error ps 0) (fun p =>
  chain (inlineData p) (fun b =>
  data b)))))).

(** Lines 88 to 100, from the response on. *)
Definition receiveResponse (env : Env) (response : Response) : M unit :=
  base64Audio <~
    match base64AudioOf response with
    | Some b => if truthy b then ret b
                else throw (newError "No audio data received from the API.")
    | None => throw (newError "No audio data received from the API.")
    end ;;
  s <~ readState ;;
  ctx <~
    match audioContextRef s with
    | Some ctx => ret ctx
    | None =>
        ctx <~ lift (newAudioContext env 24000) ;;
        perform (fun w => emit AudioContextCreated (setAudioContextRef (Some ctx) w)) ;;;
        ret ctx
    end ;;
  perform (emit (DecodingStarted base64Audio)) ;;;
  audioBytes <~ lift (decodeBase64 (messages env) base64Audio) ;;
  decodedBuffer <~ lift (decodePcmData (messages env) audioBytes ctx 24000 1) ;;
  perform (setAudioBuffer (Some decodedBuffer)).

(** Lines 102 to 107: the [catch] and [finally] clauses, applied to what the
    [try] block came to. *)
Definition surfaced (err : Thrown) : jsstring :=
  match err with
  | ErrorInstance _ message => message
  | OtherValue => code_units "An unknown error occurred."
  end.

Definition catchFinally (r : Result unit * World) : World :=
  match r with
  | (Ok _, w) => setIsLoading false w
  | (Throw err, w) =>
      setIsLoading false (setError (Some (surfaced err)) (emit (ConsoleError err) w))
  end.

(** *** [handleGenerateSpeech], lines 55 to 108 *)

Definition preconditionMessage : jsstring :=
  code_units "Please enter text and ensure your API key is configured.".

(** Line 56. *)
Definition preconditionFails (env : Env) (s : State) : bool :=
  negb (truthy (trim (text s))) || negb (truthyOpt (API_KEY env)).

(** Where the handler stands when it gives control back for the first time:
    it has returned, or it is suspended on the [await] of line 74. *)
Inductive Progress :=
| Returned (w : World)
| Awaiting (w : World) (request : Request).

(** From the click to the first [await]. *)
Definition submit (env : Env) (w : World) : Progress :=
  if preconditionFails env (state w) then
    Returned (setError (Some preconditionMessage) w)
  else
    let w := setAudioBuffer None (setError None (setIsLoading true w)) in
    match issueRequest env w with
    | (Ok request, w') => Awaiting w' request
    | (Throw err, w') => Returned (catchFinally (Throw err, w'))
    end.

(** From the settling of the promise to the end. *)
Definition settle (env : Env) (outcome : Result Response) (w : World) : World :=
  catchFinally (andThen (lift outcome) (receiveResponse env) w).

(** A whole run against the collaborators of [env]. *)
Definition handleGenerateSpeech (env : Env) (w : World) : World :=
  match submit env w with
  | Returned w' => w'
  | Awaiting w' request => settle env (generateContent env request) w'
  end.

(** [playAudio], lines 110 to 121. *)
Definition playAudio (w : World) : World :=
  match audioBuffer (state w), audioContextRef (state w) with
  | Some buffer, Some _ => emit (PlaybackStarted buffer) w
  | _, _ => w
  end.

(** *** The component on screen *)

(** Lines 45 to 53: the first render. *)
Definition initialState : State :=
  {| text := code_units
       "Hello! I can speak with different emotions. Try selecting one below and generate audio.";
     selectedEmotion := Happy;
     selectedVoice := Kore;
     speakingRate := 1;
     isLoading := false;
     error := None;
     audioBuffer := None;
     audioContextRef := None |}.

(** The mounted component: its world and the requests whose promise has not
    settled yet. *)
Record App := {
  world : World;
  inFlight : list Request
}.

Definition initialApp : App :=
  {| world := {| state := initialState; trace := [] |}; inFlight := [] |}.

(** What can happen to the mounted component.  The controls follow their
    [disabled] attributes (lines 145, 156, 176, 201 and 211) and the play
    button is rendered under the test of line 232.  [key] is the value of
    [process.env.API_KEY], fixed when the bundle is built; the state updates
    of one handler turn are applied together. *)
Inductive step (key : option jsstring) : App -> App -> Prop :=
| step_text a v :
    isLoading (state (world a)) = false ->
    step key a {| world := setText v (world a); inFlight := inFlight a |}
| step_emotion a v :
    isLoading (state (world a)) = false ->
    step key a {| world := setSelectedEmotion v (world a); inFlight := inFlight a |}
| step_voice a v :
    isLoading (state (world a)) = false ->
    step key a {| world := setSelectedVoice v (world a); inFlight := inFlight a |}
| step_rate a v :
    isLoading (state (world a)) = false ->
    step key a {| world := setSpeakingRate v (world a); inFlight := inFlight a |}
| step_generate a env :
    API_KEY env = key ->
    isLoading (state (world a)) || negb (truthy (trim (text (state (world a))))) = false ->
    step key a
      match submit env (world a) with
      | Returned w => {| world := w; inFlight := inFlight a |}
      | Awaiting w request => {| world := w; inFlight := inFlight a ++ [request] |}
      end
| step_settle a env before request after outcome :
    API_KEY env = key ->
    inFlight a = before ++ request :: after ->
    step key a {| world := settle env outcome (world a); inFlight := before ++ after |}
| step_play a buffer :
    audioBuffer (state (world a)) = Some buffer ->
    isLoading (state (world a)) = false ->
    step key a {| world := playAudio (world a); inFlight := inFlight a |}.

Inductive reachable (key : option jsstring) : App -> Prop :=
| reachable_initial : reachable key initialApp
| reachable_step a a' : reachable key a -> step key a a' -> reachable key a'.

(** ** Notions of the specification *)



(** What holds of the mounted component between two handler turns. *)
Definition consistent (key : option jsstring) (a : App) : Prop :=
  let s := state (world a) in
  (isLoading s = true ->
     error s = None /\ audioBuffer s = None /\ truthyOpt key = true
     /\ exists request, inFlight a = [request])
  /\ (isLoading s = false ->
       inFlight a = []
       /\ (error s = None \/ audioBuffer s = None)
       /\ (truthyOpt key = false -> audioBuffer s = None)).

(** The signed 16-bit little-endian integer at position [k] of a byte
    stream: bytes [2k] and [2k+1], low byte first, in two's complement. *)
Definition int16LittleEndianAt (data : list byte) (k : Z) : option Z :=
  match getElement data (2 * k), getElement data (2 * k + 1) with
  | Some lo, Some hi =>
      let w := Z.of_N (Byte.to_N lo) + 256 * Z.of_N (Byte.to_N hi) in
      Some (if w <? 32768 then w else w - 65536)
  | _, _ => None
  end.

(** The sample of channel [c] at frame [i]. *)
Definition sampleAt (b : AudioBuffer) (c i : Z) : option spec_float :=
  chain (getElement (channels b) c) (fun d => getElement d i).

(** The length of the sample arrays of a buffer, one per channel. *)
Definition channelLengths (b : AudioBuffer) : list Z :=
  List.map (fun d => Z.of_nat (List.length d)) (channels b).

(** A response without an inline-data payload in the first part of the first
    candidate. *)
Inductive PayloadAbsent : Response -> Prop :=
| no_candidates : PayloadAbsent {| candidates := None |}
| empty_candidates : PayloadAbsent {| candidates := Some [] |}
| no_content rest :
    PayloadAbsent {| candidates := Some ({| content := None |} :: rest) |}
| no_parts rest :
    PayloadAbsent
      {| candidates := Some ({| content := Some {| parts := None |} |} :: rest) |}
| empty_parts rest :
    PayloadAbsent
      {| candidates := Some ({| content := Some {| parts := Some [] |} |} :: rest) |}
| no_inline_data rest rest' :
    PayloadAbsent
      {| candidates :=
           Some ({| content := Some {| parts := Some ({| inlineData := None |} :: rest') |} |}
                   :: rest) |}
| no_data rest rest' :
    PayloadAbsent
      {| candidates :=
           Some ({| content :=
                      Some {| parts :=
                                Some ({| inlineData := Some {| data := None |} |} :: rest') |} |}
                   :: rest) |}.

(** The failures that can arise once the request of a run has been issued,
    in the order in which the run meets them: [Raised env w request e] says
    that the run suspended in world [w] on [request] ends in the failure [e]. *)
Inductive Raised (env : Env) (w : World) (request : Request) : Thrown -> Prop :=
| service_failed e :
    generateContent env request = Throw e ->
    Raised env w request e
| payload_missing response :
    generateContent env request = Ok response ->
    truthyOpt (base64AudioOf response) = false ->
    Raised env w request (newError "No audio data received from the API.")
| context_failed response payload e :
    generateContent env request = Ok response ->
    base64AudioOf response = Some payload -> truthy payload = true ->
    audioContextRef (state w) = None ->
    newAudioContext env 24000 = Throw e ->
    Raised env w request e
| decoding_failed response payload ctx e :
    generateContent env request = Ok response ->
    base64AudioOf response = Some payload -> truthy payload = true ->
    match audioContextRef (state w) with
    | Some c => c = ctx
    | None => newAudioContext env 24000 = Ok ctx
    end ->
    bind (decodeBase64 (messages env) payload)
      (fun audioBytes => decodePcmData (messages env) audioBytes ctx 24000 1)
    = Throw e ->
    Raised env w request e.

(** The supported platform: what every Web Audio implementation accepts. *)
Definition conforming (ctx : AudioContext) : Prop :=
  32 <= maxChannels ctx /\ minSampleRate ctx <= 8000 /\ 96000 <= maxSampleRate ctx.

(** [createBuffer] of [ctx] accepts this channel count and this rate. *)
Definition supports (ctx : AudioContext) (numChannels sampleRate : Z) : Prop :=
  1 <= numChannels <= maxChannels ctx /\ numChannels < 2 ^ 32
  /\ minSampleRate ctx <= sampleRate <= maxSampleRate ctx.

(** The whole frames a payload holds: [floor(length / (2 * numChannels))]. *)
Definition wholeFrames (data : list byte) (numChannels : Z) : Z :=
  Z.of_nat (List.length data) / (2 * numChannels).

(** A platform with the least limits an implementation may have, on which the
    examples below are run. *)
Definition leastContext : AudioContext :=
  {| maxChannels := 32; minSampleRate := 8000; maxSampleRate := 96000 |}.

Definition plainMessages : Messages :=
  {| invalidCharacterMessage := code_units "The string to be decoded is not correctly encoded.";
     rangeErrorMessage := code_units "byte length of Int16Array should be a multiple of 2";
     notSupportedMessage := code_units "The number of frames provided (0) is less than or equal to the minimum bound (0).";
     indexSizeMessage := code_units "channel index is outside the range" |}.

(** A service that answers every request with one candidate of one part
    carrying [payload], and the collaborators built around a service. *)
Definition answering (payload : option jsstring) (request : Request) : Result Response :=
  Ok {| candidates :=
          Some [ {| content :=
                      Some {| parts :=
                                Some [ {| inlineData := Some {| data := payload |} |} ] |} |} ] |}.

Definition collaborators (key : option jsstring)
    (service : Request -> Result Response) : Env :=
  {| API_KEY := key;
     generateContent := service;
     newAudioContext := fun _ => Ok leastContext;
     messages := plainMessages |}.

(** The component after the user has typed [input]. *)
Definition typed (input : string) : World :=
  setText (code_units input) {| state := initialState; trace := [] |}.

(** ** What the component shows, lines 124 to 247 *)

(** [a === b] on two members of [Voice]. *)
Definition voiceStrictEquals (a b : Voice) : bool :=
  String.eqb (voiceValue a) (voiceValue b).

(** One button of a choice: its [key], which is also what its [onClick]
    selects, its label, its [disabled] attribute and whether it carries the
    classes of the selected option. *)
Record ButtonView (K : Type) := {
  buttonKey : K;
  buttonLabel : string;
  buttonDisabled : bool;
  buttonSelected : bool
}.
Arguments buttonKey {K} b.
Arguments buttonLabel {K} b.
Arguments buttonDisabled {K} b.
Arguments buttonSelected {K} b.

(** The parts of the page that depend on the state. *)
Record View := {
  textareaValue : jsstring;
  textareaDisabled : bool;
  emotionButtons : list (ButtonView Emotion);
  voiceButtons : list (ButtonView Voice);
  sliderValue : Q;
  sliderDisabled : bool;
  generateDisabled : bool;
  spinnerShown : bool;
  errorBanner : option jsstring;
  playPanelShown : bool
}.

(** The [return] of the component.  [error && ...] on line 225 renders the
    banner for a non-empty message only; the panel of line 232 is rendered
    under [audioBuffer && !isLoading]. *)
Definition render (s : State) : View :=
  {| textareaValue := text s;
     textareaDisabled := isLoading s;
     emotionButtons :=
       List.map (fun emotion =>
                   {| buttonKey := id emotion;
                      buttonLabel := label emotion;
                      buttonDisabled := isLoading s;
                      buttonSelected := emotionStrictEquals (selectedEmotion s) (id emotion) |})
         EMOTIONS;
     voiceButtons :=
       List.map (fun voice =>
                   {| buttonKey := voiceId voice;
                      buttonLabel := voiceLabel voice;
                      buttonDisabled := isLoading s;
                      buttonSelected := voiceStrictEquals (selectedVoice s) (voiceId voice) |})
         VOICES;
     sliderValue := speakingRate s;
     sliderDisabled := isLoading s;
     generateDisabled := isLoading s || negb (truthy (trim (text s)));
     spinnerShown := isLoading s;
     errorBanner :=
       match error s with
       | Some message => if truthy message then Some message else None
       | None => None
       end;
     playPanelShown :=
       match audioBuffer s with
       | Some _ => negb (isLoading s)
       | None => false
       end |}.

(** ** Further notions of the specification *)

(** Standard base64 (RFC 4648, with padding): the encoding the payload of
    the service comes in. *)
Definition base64Char (v : N) : N :=
  (if v <? 26 then v + 65
   else if v <? 52 then v + 71
   else if v <? 62 then v - 4
   else if v =? 62 then 43
   else 47)%N.

(** The six-bit groups a byte sequence is cut into, the last one filled up
    with zero bits. *)
Fixpoint sextetsOf (bytes : list byte) : list N :=
  match bytes with
  | a :: b :: c :: rest =>
      let a := Byte.to_N a in
      let b := Byte.to_N b in
      let c := Byte.to_N c in
      (a / 4 :: (a mod 4) * 16 + b / 16 :: (b mod 16) * 4 + c / 64 :: c mod 64
         :: sextetsOf rest)%N
  | [a; b] =>
      let a := Byte.to_N a in
      let b := Byte.to_N b in
      [a / 4; (a mod 4) * 16 + b / 16; (b mod 16) * 4]%N
  | [a] =>
      let a := Byte.to_N a in
      [a / 4; (a mod 4) * 16]%N
  | [] => []
  end.

(** One [=] for a last group of two bytes, two for a last group of one. *)
Definition paddingOf (bytes : list byte) : jsstring :=
  repeat 61%N ((3 - List.length bytes mod 3) mod 3).

Definition encodeBase64 (bytes : list byte) : jsstring :=
  List.map base64Char (sextetsOf bytes) ++ paddingOf bytes.

(** The events of one kind in a trace. *)
Definition isServiceCall (e : Event) : bool :=
  match e with ServiceCall _ => true | _ => false end.

Definition isContextCreation (e : Event) : bool :=
  match e with AudioContextCreated => true | _ => false end.

Definition serviceCalls (t : list Event) : nat := List.length (filter isServiceCall t).

Definition contextCreations (t : list Event) : nat :=
  List.length (filter isContextCreation t).

(** What the run of a payload comes to on a conforming platform. *)
Definition payloadVerdict (m : Messages) (payload : jsstring) : option jsstring :=
  match decodeBase64 m payload with
  | Throw e => Some (surfaced e)
  | Ok audioBytes =>
      if negb (Z.of_nat (List.length audioBytes) mod 2 =? 0)
      then Some (rangeErrorMessage m)
      else if Z.of_nat (List.length audioBytes) =? 0
      then Some (notSupportedMessage m)
      else None
  end.

(** The component one click on Generate after it was mounted, and after the
    promise of that click has settled. *)
Definition afterClick (env : Env) : App :=
  match submit env (world initialApp) with
  | Returned w => {| world := w; inFlight := inFlight initialApp |}
  | Awaiting w request => {| world := w; inFlight := inFlight initialApp ++ [request] |}
  end.

Definition afterSettling (env : Env) (outcome : Result Response) : App :=
  {| world := settle env outcome (world (afterClick env)); inFlight := [] |}.

(** * Properties *)

(** ** Sample arithmetic is exact *)

Section IterationFacts.

Lemma iter_pos_nat {A} (f : A -> A) (k : positive) (x : A) :
  iter_pos f k x = Nat.iter (Pos.to_nat k) f x.
Proof.
  revert x; induction k as [k IH | k IH |]; intro x; cbn [iter_pos].
  - rewrite !IH, Pos2Nat.inj_xI.
    replace (S (2 * Pos.to_nat k))%nat
      with (Pos.to_nat k + (Pos.to_nat k + 1))%nat by lia.
    rewrite !Nat.iter_add. reflexivity.
  - rewrite !IH, Pos2Nat.inj_xO.
    replace (2 * Pos.to_nat k)%nat with (Pos.to_nat k + Pos.to_nat k)%nat by lia.
    rewrite Nat.iter_add. reflexivity.
  - reflexivity.
Qed.

Lemma digits2_shiftl_nat a n :
  Zpos (digits2_pos (Pos.shiftl_nat a n)) = Zpos (digits2_pos a) + Z.of_nat n.
Proof.
  induction n as [| n IH].
  - cbn. lia.
  - change (Pos.shiftl_nat a (S n)) with (xO (Pos.shiftl_nat a n)).
    cbn [digits2_pos]. lia.
Qed.

Lemma shiftl_nat_value a n : Zpos (Pos.shiftl_nat a n) = Zpos a * 2 ^ Z.of_nat n.
Proof.
  induction n as [| n IH].
  - cbn. lia.
  - change (Pos.shiftl_nat a (S n)) with (xO (Pos.shiftl_nat a n)).
    rewrite Nat2Z.inj_succ, Z.pow_succ_r by lia. lia.
Qed.

Lemma shiftl_nat_add a n k :
  Pos.shiftl_nat (Pos.shiftl_nat a n) k = Pos.shiftl_nat a (k + n).
Proof. symmetry. apply Nat.iter_add. Qed.

Lemma shr_shiftl_nat m n :
  Nat.iter n shr_1
    {| shr_m := Zpos (Pos.shiftl_nat m n); shr_r := false; shr_s := false |}
  = {| shr_m := Zpos m; shr_r := false; shr_s := false |}.
Proof.
  induction n as [| n IH].
  - reflexivity.
  - rewrite Nat.iter_succ_r. exact IH.
Qed.

Lemma digits2_bound a :
  forall n, 0 <= n -> Zpos a < 2 ^ n -> Zpos (digits2_pos a) <= n.
Proof.
  induction a as [a IH | a IH |]; intros n Hn Ha; cbn [digits2_pos];
    assert (n <> 0) by (intros ->; cbn in Ha; lia).
  - replace n with (Z.succ (n - 1)) in Ha by lia.
    rewrite Z.pow_succ_r in Ha by lia.
    specialize (IH (n - 1)). lia.
  - replace n with (Z.succ (n - 1)) in Ha by lia.
    rewrite Z.pow_succ_r in Ha by lia.
    specialize (IH (n - 1)). lia.
  - lia.
Qed.

End IterationFacts.

Section Rounding.

Variables prec emax : Z.

(** A mantissa of [prec] digits followed by [k] zero bits rounds to itself:
    nothing is lost. *)
Lemma round_aux_trailing_zeros s m k e :
  Zpos (digits2_pos m) = prec ->
  3 - emax - prec <= e + Z.of_nat k <= emax - prec ->
  binary_round_aux prec emax s (Zpos (Pos.shiftl_nat m k)) e loc_Exact
  = S754_finite s m (e + Z.of_nat k).
Proof.
  intros Hd He.
  assert (Hfexp : forall z, 3 - emax - prec <= z -> fexp prec emax (prec + z) = z).
  { intros z Hz. unfold fexp, emin. lia. }
  unfold binary_round_aux, shr_fexp.
  cbn [Zdigits2 shr_record_of_loc].
  rewrite digits2_shiftl_nat, Hd.
  replace (prec + Z.of_nat k + e) with (prec + (e + Z.of_nat k)) by lia.
  rewrite Hfexp by lia.
  replace (e + Z.of_nat k - e) with (Z.of_nat k) by lia.
  assert (Hshr :
    shr {| shr_m := Zpos (Pos.shiftl_nat m k); shr_r := false; shr_s := false |}
      e (Z.of_nat k)
    = ({| shr_m := Zpos m; shr_r := false; shr_s := false |}, e + Z.of_nat k)).
  { destruct k as [| k].
    - cbn. f_equal. lia.
    - unfold shr. cbn [Z.of_nat]. rewrite iter_pos_nat, SuccNat2Pos.id_succ.
      rewrite shr_shiftl_nat. reflexivity. }
  rewrite Hshr.
  cbn [shr_m loc_of_shr_record round_nearest_even Zdigits2 shr_record_of_loc].
  rewrite Hd, Hfexp by lia.
  replace (e + Z.of_nat k - (e + Z.of_nat k)) with 0 by lia.
  cbn [shr shr_m].
  destruct (Z.leb_spec (e + Z.of_nat k) (emax - prec)); [reflexivity | lia].
Qed.

End Rounding.

Module FloatFacts.
Import Float.

Lemma binary_round_integer s a :
  Zpos (digits2_pos a) < 53 ->
  binary_round 53 1024 s a 0
  = S754_finite s (Pos.shiftl_nat a (Z.to_nat (53 - Zpos (digits2_pos a))))
      (Zpos (digits2_pos a) - 53).
Proof.
  intro Hd. unfold binary_round, shl_align.
  set (D := Zpos (digits2_pos a)) in *.
  assert (HD : 0 < D) by (unfold D; lia).
  replace (fexp 53 1024 (D + 0)) with (D - 53) by (unfold fexp, emin; lia).
  destruct (D - 53 - 0) as [| p | p] eqn:Hp; try lia.
  rewrite Pos2Nat.inj_iter.
  change (@nat_rect (fun _ => positive) a (fun _ => xO) (Pos.to_nat p))
    with (Pos.shiftl_nat a (Pos.to_nat p)).
  replace (Z.to_nat (53 - D)) with (Pos.to_nat p) by lia.
  pose proof (round_aux_trailing_zeros 53 1024 s
                (Pos.shiftl_nat a (Pos.to_nat p)) 0 (D - 53)) as R.
  cbn [Pos.shiftl_nat Nat.iter nat_rect] in R.
  rewrite Z.add_0_r in R. apply R.
  - rewrite digits2_shiftl_nat. fold D. lia.
  - lia.
Qed.

Lemma div_by_32768 s m e :
  Zpos (digits2_pos m) = 53 ->
  -1074 <= e - 16 /\ e - 15 <= 971 ->
  div (S754_finite s m e) (ofInteger 32768) = S754_finite s m (e - 15).
Proof.
  intros Hd He.
  change (ofInteger 32768) with (S754_finite false 4503599627370496 (-37)).
  unfold div, SFdiv, SFdiv_core_binary.
  cbn [Zdigits2]. rewrite Hd.
  change (Zpos (digits2_pos 4503599627370496)) with 53.
  replace (Z.min (fexp 53 1024 (53 + e - (53 + -37))) (e - -37)) with (e - 16)
    by (unfold fexp, emin; lia).
  replace (e - -37 - (e - 16)) with 53 by lia.
  assert (Hq : Z.div_eucl (Z.shiftl (Zpos m) 53) (Zpos 4503599627370496)
               = (Zpos (Pos.shiftl_nat m 1), 0)).
  { pose proof (Z.div_eucl_eq (Z.shiftl (Zpos m) 53) (Zpos 4503599627370496)) as E.
    pose proof (Z.mod_pos_bound (Z.shiftl (Zpos m) 53) (Zpos 4503599627370496)) as B.
    unfold Z.modulo in B.
    destruct (Z.div_eucl (Z.shiftl (Zpos m) 53) (Zpos 4503599627370496)) as [q r].
    rewrite Z.shiftl_mul_pow2 in E by lia.
    change (Pos.shiftl_nat m 1) with (xO m).
    change (2 ^ 53) with 9007199254740992 in E.
    f_equal; lia. }
  rewrite Hq.
  change (new_location (Zpos 4503599627370496) 0) with loc_Exact.
  rewrite (round_aux_trailing_zeros 53 1024 (xorb s false) m 1 (e - 16)) by (cbn; lia).
  rewrite xorb_false_r. f_equal. cbn. lia.
Qed.

Lemma toFloat32_trailing_zeros s m e :
  Zpos (digits2_pos m) = 24 ->
  -149 <= e + 29 <= 104 ->
  toFloat32 (S754_finite s (Pos.shiftl_nat m 29) e) = S754_finite s m (e + 29).
Proof.
  intros Hd He.
  assert (R : binary_round 24 128 s (Pos.shiftl_nat m 29) e
              = S754_finite s m (e + 29)).
  { unfold binary_round, shl_align.
    rewrite digits2_shiftl_nat, Hd.
    replace (fexp 24 128 (24 + Z.of_nat 29 + e)) with (e + 29)
      by (unfold fexp, emin; lia).
    replace (e + 29 - e) with 29 by lia.
    apply (round_aux_trailing_zeros 24 128 s m 29 e Hd). cbn. lia. }
  unfold toFloat32, binary_normalize. destruct s; exact R.
Qed.

(** The float a non-zero 16-bit integer of sign [s] and magnitude [a]
    becomes on line 35. *)
Lemma sample_closed_form s a :
  Zpos a <= 32768 ->
  toFloat32 (div (binary_round 53 1024 s a 0) (ofInteger 32768))
  = S754_finite s (Pos.shiftl_nat a (Z.to_nat (24 - Zpos (digits2_pos a))))
      (Zpos (digits2_pos a) - 39).
Proof.
  intro Ha.
  pose proof (digits2_bound a 16 ltac:(lia) ltac:(lia)) as HD.
  set (D := Zpos (digits2_pos a)) in *.
  assert (0 < D) by (unfold D; lia).
  rewrite binary_round_integer by (fold D; lia). fold D.
  replace (Z.to_nat (53 - D)) with (29 + Z.to_nat (24 - D))%nat by lia.
  rewrite <- shiftl_nat_add.
  rewrite div_by_32768.
  - rewrite toFloat32_trailing_zeros.
    + f_equal. lia.
    + rewrite digits2_shiftl_nat. fold D. lia.
    + lia.
  - rewrite !digits2_shiftl_nat. fold D. lia.
  - lia.
Qed.

Lemma sample_value s a :
  Zpos a <= 32768 ->
  exists q,
    toQ (toFloat32 (div (binary_round 53 1024 s a 0) (ofInteger 32768))) = Some q
    /\ (q == cond_Zopp s (Zpos a) # 32768)%Q.
Proof.
  intro Ha. rewrite sample_closed_form by exact Ha.
  pose proof (digits2_bound a 16 ltac:(lia) ltac:(lia)) as HD.
  set (D := Zpos (digits2_pos a)) in *.
  assert (0 < D) by (unfold D; lia).
  unfold toQ. destruct (D - 39) as [| p | p] eqn:Hp; try lia.
  eexists; split; [reflexivity |].
  unfold Qeq; cbn [Qnum Qden].
  assert (Hm : Zpos (Pos.shiftl_nat a (Z.to_nat (24 - D))) = Zpos a * 2 ^ (24 - D)).
  { rewrite shiftl_nat_value. rewrite Z2Nat.id by lia. reflexivity. }
  assert (Hp2 : Zpos (2 ^ p) = 2 ^ (39 - D)).
  { rewrite Pos2Z.inj_pow. f_equal. lia. }
  rewrite Hp2.
  replace (39 - D) with ((24 - D) + 15) by lia.
  rewrite Z.pow_add_r by lia.
  change (2 ^ 15) with 32768.
  destruct s; cbn [cond_Zopp]; rewrite Hm; ring.
Qed.

End FloatFacts.

(** The sample computed from a 16-bit integer [v] is a finite float whose
    value is the rational [v / 32768]: neither the division nor the store
    into the [Float32Array] rounds. *)
Lemma sampleOf_exact v :
  -32768 <= v <= 32767 ->
  exists q, Float.toQ (sampleOf (Some v)) = Some q /\ (q == v # 32768)%Q.
Proof.
  intro Hv. unfold sampleOf, Float.ofInteger at 1, binary_normalize.
  destruct v as [| a | a].
  - exists 0%Q. split; reflexivity.
  - apply (FloatFacts.sample_value false a). lia.
  - apply (FloatFacts.sample_value true a). lia.
Qed.

(** ** Typed arrays and Numbers *)

Section TypedArrayFacts.

Context {A : Type}.

Lemma replaceNth_length n (a : list A) v : List.length (replaceNth n a v) = List.length a.
Proof.
  revert n; induction a as [| x a IH]; intros [| n]; cbn; try reflexivity.
  now rewrite IH.
Qed.

Lemma nth_error_replaceNth_same n (a : list A) v :
  (n < List.length a)%nat -> nth_error (replaceNth n a v) n = Some v.
Proof.
  revert n; induction a as [| x a IH]; intros [| n] H; cbn in *; try lia.
  - reflexivity.
  - apply IH. lia.
Qed.

Lemma nth_error_replaceNth_other n j (a : list A) v :
  n <> j -> nth_error (replaceNth n a v) j = nth_error a j.
Proof.
  revert n j; induction a as [| x a IH]; intros [| n] [| j] H; cbn;
    try reflexivity; try congruence.
  apply IH. congruence.
Qed.

Lemma setElement_length (a : list A) k v :
  List.length (setElement a k v) = List.length a.
Proof.
  unfold setElement. destruct (k <? 0); [reflexivity | apply replaceNth_length].
Qed.

Lemma getElement_nat (a : list A) (j : nat) :
  getElement a (Z.of_nat j) = nth_error a j.
Proof.
  unfold getElement. destruct (Z.ltb_spec (Z.of_nat j) 0); [lia |].
  now rewrite Nat2Z.id.
Qed.

Lemma getElement_Some_bounds (a : list A) k x :
  getElement a k = Some x -> 0 <= k < Z.of_nat (List.length a).
Proof.
  unfold getElement. destruct (Z.ltb_spec k 0); [discriminate |].
  intro E. assert (nth_error a (Z.to_nat k) <> None) as N by congruence.
  apply nth_error_Some in N. lia.
Qed.

Lemma getElement_in_bounds (a : list A) k :
  0 <= k < Z.of_nat (List.length a) -> exists x, getElement a k = Some x.
Proof.
  intro H. unfold getElement. destruct (Z.ltb_spec k 0); [lia |].
  destruct (nth_error a (Z.to_nat k)) eqn:E; [eauto |].
  apply nth_error_None in E. lia.
Qed.

Lemma getElement_setElement_same (a : list A) k v :
  0 <= k < Z.of_nat (List.length a) -> getElement (setElement a k v) k = Some v.
Proof.
  intro H. unfold getElement, setElement.
  destruct (Z.ltb_spec k 0); [lia |].
  apply nth_error_replaceNth_same. lia.
Qed.

Lemma getElement_setElement_other (a : list A) k j v :
  k <> j -> getElement (setElement a k v) j = getElement a j.
Proof.
  intro H. unfold getElement, setElement.
  destruct (Z.ltb_spec j 0); [reflexivity |].
  destruct (Z.ltb_spec k 0); [reflexivity |].
  apply nth_error_replaceNth_other. lia.
Qed.

Lemma getElement_repeat (x : A) n k :
  0 <= k < Z.of_nat n -> getElement (repeat x n) k = Some x.
Proof.
  intro H. unfold getElement. destruct (Z.ltb_spec k 0); [lia |].
  apply nth_error_repeat. lia.
Qed.

End TypedArrayFacts.

Section NumberFacts.

Variables len numChannels : Z.
Hypothesis len_nonneg : 0 <= len.
Hypothesis channels_pos : 1 <= numChannels.

(** The loop test [i < frameCount] of line 34. *)
Lemma lessThan_divide i :
  lessThan i (divide len numChannels) = (i * numChannels <? len).
Proof.
  unfold divide. destruct (Z.eqb_spec numChannels 0) as [-> | _]; [lia |].
  unfold lessThan.
  destruct numChannels as [| p | p]; try lia.
  destruct (Z.ltb_spec (i * Zpos p) len) as [H | H].
  - apply negb_true_iff. apply not_true_is_false. rewrite Qle_bool_iff.
    unfold Qle, Qdiv, Qmult, Qinv, inject_Z; cbn. lia.
  - apply negb_false_iff. rewrite Qle_bool_iff.
    unfold Qle, Qdiv, Qmult, Qinv, inject_Z; cbn. lia.
Qed.

(** The frame count as [createBuffer] receives it. *)
Lemma toUnsignedLong_divide :
  toUnsignedLong (divide len numChannels) = (len / numChannels) mod 2 ^ 32.
Proof.
  unfold divide. destruct (Z.eqb_spec numChannels 0) as [-> | _]; [lia |].
  unfold toUnsignedLong, integerPart.
  assert (H : Qle_bool 0 (inject_Z len / inject_Z numChannels) = true).
  { rewrite Qle_bool_iff. destruct numChannels as [| p | p]; try lia.
    unfold Qle, Qdiv, Qmult, Qinv, inject_Z; cbn. lia. }
  rewrite H, <- Zdiv_Qdiv. reflexivity.
Qed.

End NumberFacts.

Section Int16Facts.

Lemma byte_range (b : byte) : 0 <= Z.of_N (Byte.to_N b) < 256.
Proof. pose proof (Byte.to_N_bounded b). lia. Qed.

Lemma toInt16_range w : -32768 <= toInt16 w <= 32767.
Proof.
  unfold toInt16. pose proof (Z.mod_pos_bound w 65536 ltac:(lia)).
  destruct (Z.ltb_spec (w mod 65536) 32768); lia.
Qed.

Lemma int16Elements_length data :
  Z.of_nat (List.length (int16Elements data)) = Z.of_nat (List.length data) / 2.
Proof.
  assert (G : forall n data, (List.length data <= n)%nat ->
              Z.of_nat (List.length (int16Elements data)) = Z.of_nat (List.length data) / 2).
  { clear data. induction n as [| n IH]; intros [| lo [| hi rest]] H; cbn in H;
      try reflexivity; try lia.
    cbn [int16Elements List.length].
    rewrite !Nat2Z.inj_succ, IH by lia.
    replace (Z.succ (Z.succ (Z.of_nat (List.length rest))))
      with (Z.of_nat (List.length rest) + 1 * 2) by lia.
    rewrite Z.div_add by lia. lia. }
  apply (G (List.length data)). lia.
Qed.

(** The view shows at index [k] the little-endian integer at position [k]
    of the byte stream. *)
Lemma int16Elements_at k :
  forall data, nth_error (int16Elements data) k = int16LittleEndianAt data (Z.of_nat k).
Proof.
  induction k as [| k IH]; intros [| lo [| hi rest]]; try reflexivity.
  - cbn [int16Elements nth_error]. unfold int16LittleEndianAt.
    change (getElement (lo :: hi :: rest) (2 * Z.of_nat 0)) with (Some lo).
    change (getElement (lo :: hi :: rest) (2 * Z.of_nat 0 + 1)) with (Some hi).
    unfold toInt16. pose proof (byte_range lo). pose proof (byte_range hi).
    rewrite Z.mod_small by lia. reflexivity.
  - unfold int16LittleEndianAt, getElement.
    destruct (Z.ltb_spec (2 * Z.of_nat (S k)) 0); [lia |].
    replace (Z.to_nat (2 * Z.of_nat (S k))) with (S (S (2 * k))) by lia.
    reflexivity.
  - unfold int16LittleEndianAt, getElement.
    destruct (Z.ltb_spec (2 * Z.of_nat (S k)) 0); [lia |].
    replace (Z.to_nat (2 * Z.of_nat (S k))) with (S (S (2 * k))) by lia.
    cbn. now destruct (2 * k)%nat.
  - cbn [int16Elements nth_error]. rewrite IH.
    unfold int16LittleEndianAt, getElement.
    destruct (Z.ltb_spec (2 * Z.of_nat (S k)) 0); [lia |].
    destruct (Z.ltb_spec (2 * Z.of_nat (S k) + 1) 0); [lia |].
    destruct (Z.ltb_spec (2 * Z.of_nat k) 0); [lia |].
    destruct (Z.ltb_spec (2 * Z.of_nat k + 1) 0); [lia |].
    replace (Z.to_nat (2 * Z.of_nat (S k))) with (S (S (Z.to_nat (2 * Z.of_nat k)))) by lia.
    replace (Z.to_nat (2 * Z.of_nat (S k) + 1))
      with (S (S (Z.to_nat (2 * Z.of_nat k + 1)))) by lia.
    reflexivity.
Qed.

Lemma int16Elements_range data k v :
  getElement (int16Elements data) k = Some v -> -32768 <= v <= 32767.
Proof.
  unfold getElement. destruct (k <? 0); [discriminate |].
  generalize (Z.to_nat k) as n. clear k.
  assert (G : forall m data, (List.length data <= m)%nat -> forall n,
              nth_error (int16Elements data) n = Some v -> -32768 <= v <= 32767).
  { clear data. induction m as [| m IH]; intros [| lo [| hi rest]] H n E;
      cbn in H; try lia; try (destruct n; discriminate).
    cbn [int16Elements] in E. destruct n as [| n]; cbn in E.
    - injection E as <-. apply toInt16_range.
    - apply (IH rest ltac:(lia) n E). }
  apply (G (List.length data)). lia.
Qed.

End Int16Facts.

(** ** The loops of [decodePcmData] *)

Section LoopFacts.

Variable m : Messages.
Variable dataInt16 : list Z.
Variable numChannels : Z.
Hypothesis channels_pos : 1 <= numChannels.

Let len := Z.of_nat (List.length dataInt16).
Let frameCount := divide len numChannels.

Lemma fillChannel_length fuel : forall i channel channelData,
  List.length (fillChannel fuel i frameCount dataInt16 numChannels channel channelData)
  = List.length channelData.
Proof.
  induction fuel as [| fuel IH]; intros i channel channelData; cbn [fillChannel].
  - reflexivity.
  - destruct (lessThan i frameCount); [| reflexivity].
    rewrite IH. apply setElement_length.
Qed.

(** With fuel for every remaining index the inner loop leaves through its
    test, having written each frame [j] from [i] on with [j < frameCount] and
    left the rest as it was. *)
Lemma fillChannel_at fuel : forall i channel channelData j,
  0 <= i ->
  len <= i + Z.of_nat fuel ->
  0 <= j < Z.of_nat (List.length channelData) ->
  getElement (fillChannel fuel i frameCount dataInt16 numChannels channel channelData) j
  = if (i <=? j) && (j * numChannels <? len)
    then Some (sampleOf (getElement dataInt16 (j * numChannels + channel)))
    else getElement channelData j.
Proof.
  induction fuel as [| fuel IH]; intros i channel channelData j Hi Hfuel Hj;
    cbn [fillChannel].
  - destruct (Z.leb_spec i j); destruct (Z.ltb_spec (j * numChannels) len);
      cbn [andb]; try reflexivity; nia.
  - unfold frameCount at 1. rewrite lessThan_divide by (unfold len; lia).
    destruct (Z.ltb_spec (i * numChannels) len) as [Hlt | Hge].
    + rewrite IH by (rewrite ?setElement_length; lia).
      destruct (Z.eq_dec i j) as [-> | Hne].
      * destruct (Z.leb_spec (j + 1) j); [lia |]. cbn [andb].
        rewrite getElement_setElement_same by lia.
        destruct (Z.leb_spec j j); [| lia].
        destruct (Z.ltb_spec (j * numChannels) len); [| lia]. reflexivity.
      * rewrite getElement_setElement_other by exact Hne.
        destruct (Z.leb_spec (i + 1) j); destruct (Z.leb_spec i j);
          try reflexivity; lia.
    + destruct (Z.leb_spec i j); destruct (Z.ltb_spec (j * numChannels) len);
        cbn [andb]; try reflexivity; nia.
Qed.

(** More fuel does not change what the inner loop computes. *)
Lemma fillChannel_fuel fuel fuel' i channel channelData :
  0 <= i -> len <= i + Z.of_nat fuel -> (fuel <= fuel')%nat ->
  fillChannel fuel' i frameCount dataInt16 numChannels channel channelData
  = fillChannel fuel i frameCount dataInt16 numChannels channel channelData.
Proof.
  revert fuel' i channelData.
  induction fuel as [| fuel IH]; intros fuel' i channelData Hi Hfuel Hle.
  - destruct fuel' as [| fuel']; [reflexivity |]. cbn [fillChannel].
    unfold frameCount. rewrite lessThan_divide by (unfold len; lia).
    destruct (Z.ltb_spec (i * numChannels) len); [nia | reflexivity].
  - destruct fuel' as [| fuel']; [lia |]. cbn [fillChannel].
    destruct (lessThan i frameCount); [| reflexivity].
    apply IH; lia.
Qed.

(** The fuel [fillBuffer] gives the inner loop, one step for every element of
    the view, is such fuel. *)
Corollary fillChannel_enough_fuel extra channel channelData :
  fillChannel (List.length dataInt16 + extra) 0 frameCount dataInt16 numChannels
    channel channelData
  = fillChannel (List.length dataInt16) 0 frameCount dataInt16 numChannels
      channel channelData.
Proof. apply fillChannel_fuel; unfold len; lia. Qed.

Lemma setChannelData_channels buffer channel d :
  channels (setChannelData buffer channel d) = setElement (channels buffer) channel d.
Proof. reflexivity. Qed.

(** The outer loop visits every channel from [channel] on, when the buffer
    has them all. *)
Lemma fillBuffer_ok fuel : forall channel buffer,
  0 <= channel ->
  channel + Z.of_nat fuel = numChannels ->
  Z.of_nat (List.length (channels buffer)) = numChannels ->
  exists buffer',
    fillBuffer m fuel channel frameCount dataInt16 numChannels buffer = Ok buffer'
    /\ sampleRate buffer' = sampleRate buffer
    /\ List.length (channels buffer') = List.length (channels buffer)
    /\ forall c, 0 <= c < numChannels ->
         getElement (channels buffer') c
         = if channel <=? c
           then option_map
                  (fillChannel (List.length dataInt16) 0 frameCount dataInt16
                     numChannels c)
                  (getElement (channels buffer) c)
           else getElement (channels buffer) c.
Proof.
  induction fuel as [| fuel IH]; intros channel buffer Hc Hfuel Hlen;
    cbn [fillBuffer].
  - exists buffer. repeat split. intros c Hcr.
    destruct (Z.leb_spec channel c); [lia | reflexivity].
  - destruct (Z.ltb_spec channel numChannels); [| lia].
    unfold getChannelData.
    destruct (getElement_in_bounds (channels buffer) channel ltac:(lia)) as [d Hd].
    rewrite Hd. cbn [bind].
    set (d' := fillChannel _ 0 frameCount dataInt16 numChannels channel d).
    destruct (IH (channel + 1) (setChannelData buffer channel d')) as
      (buffer' & Hrun & Hrate & Hlen' & Hat).
    + lia.
    + lia.
    + rewrite setChannelData_channels, setElement_length. exact Hlen.
    + exists buffer'. split; [exact Hrun |]. split; [exact Hrate |].
      split; [rewrite Hlen', setChannelData_channels; apply setElement_length |].
      intros c Hcr. rewrite (Hat c Hcr), setChannelData_channels.
      destruct (Z.eq_dec channel c) as [-> | Hne].
      * destruct (Z.leb_spec (c + 1) c); [lia |].
        destruct (Z.leb_spec c c); [| lia].
        rewrite getElement_setElement_same by lia.
        rewrite Hd. reflexivity.
      * rewrite getElement_setElement_other by exact Hne.
        destruct (Z.leb_spec (channel + 1) c); destruct (Z.leb_spec channel c);
          try reflexivity; lia.
Qed.

(** When the buffer has fewer channels than [numChannels] the outer loop
    ends in the IndexSizeError of [getChannelData]. *)
Lemma fillBuffer_throws fuel : forall channel buffer,
  0 <= channel <= Z.of_nat (List.length (channels buffer)) ->
  Z.of_nat (List.length (channels buffer)) < numChannels ->
  channel + Z.of_nat fuel = numChannels ->
  exists e, fillBuffer m fuel channel frameCount dataInt16 numChannels buffer = Throw e.
Proof.
  induction fuel as [| fuel IH]; intros channel buffer Hc Hlen Hfuel;
    cbn [fillBuffer].
  - lia.
  - destruct (Z.ltb_spec channel numChannels); [| lia].
    unfold getChannelData.
    destruct (getElement (channels buffer) channel) as [d |] eqn:Hd; cbn [bind].
    + apply getElement_Some_bounds in Hd.
      apply IH; rewrite ?setChannelData_channels, ?setElement_length; lia.
    + eauto.
Qed.

End LoopFacts.

(** ** What [decodePcmData] returns *)

Section DecoderFacts.

Variable m : Messages.
Variable data : list byte.
Variable ctx : AudioContext.
Variables sampleRate numChannels : Z.

Let len := Z.of_nat (List.length (int16Elements data)).
Let frames := (len / numChannels) mod 2 ^ 32.

Lemma frames_le_quotient : 1 <= numChannels -> frames <= len / numChannels.
Proof.
  intro H. unfold frames.
  assert (0 <= len / numChannels) by (apply Z.div_pos; unfold len; lia).
  apply Z.mod_le; lia.
Qed.

Lemma quotient_index i c :
  1 <= numChannels -> 0 <= i < len / numChannels -> 0 <= c < numChannels ->
  0 <= i * numChannels + c < len /\ i * numChannels < len.
Proof.
  intros Hn Hi Hc.
  pose proof (Z.mul_div_le len numChannels ltac:(lia)).
  nia.
Qed.

(** An accepted payload gives a buffer of [numChannels] arrays of [frames]
    samples, the sample of channel [c] at frame [i] being computed from
    element [i * numChannels + c] of the view. *)
Lemma decodePcmData_ok :
  Z.of_nat (List.length data) mod 2 = 0 ->
  supports ctx numChannels sampleRate ->
  1 <= frames ->
  exists buffer,
    decodePcmData m data ctx sampleRate numChannels = Ok buffer
    /\ Web.sampleRate buffer = sampleRate
    /\ Z.of_nat (List.length (channels buffer)) = numChannels
    /\ forall c, 0 <= c < numChannels ->
         exists d, getElement (channels buffer) c = Some d
           /\ Z.of_nat (List.length d) = frames
           /\ forall i, 0 <= i < frames ->
                getElement d i
                = Some (sampleOf (getElement (int16Elements data)
                                    (i * numChannels + c))).
Proof.
  intros Heven (Hn & Hn32 & Hrate) Hframes.
  unfold decodePcmData, newInt16Array.
  rewrite Heven. cbn [Z.eqb bind].
  unfold createBuffer.
  rewrite toUnsignedLong_divide by lia. fold len. fold frames.
  rewrite (Z.mod_small numChannels) by lia.
  replace ((1 <=? numChannels) && (numChannels <=? maxChannels ctx) && (1 <=? frames)
           && (minSampleRate ctx <=? sampleRate) && (sampleRate <=? maxSampleRate ctx))
    with true
    by (symmetry; repeat (apply andb_true_iff; split); apply Z.leb_le; lia).
  cbn [bind].
  set (silent := {| Web.sampleRate := sampleRate;
                    channels := repeat (repeat (S754_zero false) (Z.to_nat frames))
                                  (Z.to_nat numChannels) |}).
  destruct (fillBuffer_ok m (int16Elements data) numChannels
              (Z.to_nat numChannels) 0 silent) as (buffer & Hrun & Hsr & Hlen & Hat).
  - lia.
  - lia.
  - cbn. rewrite repeat_length. lia.
  - exists buffer. split; [exact Hrun |]. split; [exact Hsr |].
    split; [rewrite Hlen; cbn; rewrite repeat_length; lia |].
    intros c Hc. rewrite (Hat c Hc).
    destruct (Z.leb_spec 0 c); [| lia].
    cbn [silent channels]. rewrite getElement_repeat by lia. cbn [option_map].
    eexists. split; [reflexivity |].
    split; [rewrite fillChannel_length, repeat_length; lia |].
    intros i Hi.
    pose proof (frames_le_quotient ltac:(lia)) as Hle.
    destruct (quotient_index i c ltac:(lia) ltac:(lia) Hc) as [_ Hlt].
    rewrite fillChannel_at; try (rewrite ?repeat_length; lia).
    destruct (Z.leb_spec 0 i); [| lia].
    fold len. destruct (Z.ltb_spec (i * numChannels) len); [| lia].
    reflexivity.
Qed.

(** Conversely, a buffer is only returned for an accepted payload. *)
Lemma decodePcmData_inv buffer :
  1 <= numChannels ->
  decodePcmData m data ctx sampleRate numChannels = Ok buffer ->
  Z.of_nat (List.length data) mod 2 = 0
  /\ supports ctx numChannels sampleRate
  /\ 1 <= frames.
Proof.
  intros Hn. unfold decodePcmData, newInt16Array.
  destruct (Z.eqb_spec (Z.of_nat (List.length data) mod 2) 0) as [Heven | _];
    [| discriminate].
  cbn [bind]. unfold createBuffer.
  rewrite toUnsignedLong_divide by lia. fold len. fold frames.
  destruct ((1 <=? numChannels mod 2 ^ 32) && (numChannels mod 2 ^ 32 <=? maxChannels ctx)
            && (1 <=? frames) && (minSampleRate ctx <=? sampleRate)
            && (sampleRate <=? maxSampleRate ctx)) eqn:Htest; [| discriminate].
  repeat (apply andb_true_iff in Htest; destruct Htest as [Htest ?]).
  repeat match goal with H : (_ <=? _) = true |- _ => apply Z.leb_le in H end.
  cbn [bind]. intro Hrun.
  assert (Hn32 : numChannels < 2 ^ 32).
  { destruct (Z_lt_ge_dec numChannels (2 ^ 32)) as [Hlt | Hge]; [exact Hlt |].
    pose proof (Z.mod_pos_bound numChannels (2 ^ 32) ltac:(lia)) as Hmod.
    match type of Hrun with
    | fillBuffer _ _ _ _ _ _ ?b = _ =>
        destruct (fillBuffer_throws m (int16Elements data) numChannels
                    (Z.to_nat numChannels) 0 b) as [e He]
    end.
    - cbn [channels]. lia.
    - cbn [channels]. rewrite repeat_length. lia.
    - lia.
    - assert (Hc : Ok buffer = Throw e) by (rewrite <- Hrun; exact He).
      discriminate Hc. }
  rewrite Z.mod_small in * by lia.
  unfold supports. repeat split; lia.
Qed.

End DecoderFacts.

(** ** The PCM decoder *)

Section DecoderShape.

Variable m : Messages.
Variable data : list byte.
Variable ctx : AudioContext.
Variables sampleRate numChannels : Z.

Lemma wholeFrames_view :
  1 <= numChannels ->
  wholeFrames data numChannels
  = Z.of_nat (List.length (int16Elements data)) / numChannels.
Proof.
  intro H. unfold wholeFrames.
  rewrite int16Elements_length, Z.div_div by lia. reflexivity.
Qed.

(** A returned buffer has [numChannels] arrays of one length. *)
Lemma decoded_shape frames :
  Z.of_nat (List.length data) mod 2 = 0 ->
  supports ctx numChannels sampleRate ->
  1 <= frames < 2 ^ 32 ->
  wholeFrames data numChannels = frames ->
  exists buffer,
    decodePcmData m data ctx sampleRate numChannels = Ok buffer
    /\ Web.sampleRate buffer = sampleRate
    /\ numberOfChannels buffer = numChannels
    /\ channelLengths buffer = repeat frames (Z.to_nat numChannels).
Proof.
  intros Heven Hsup Hframes Hwhole.
  assert (Hn : 1 <= numChannels) by (destruct Hsup; lia).
  rewrite wholeFrames_view in Hwhole by exact Hn.
  destruct (decodePcmData_ok m data ctx sampleRate numChannels Heven Hsup)
    as (buffer & Hrun & Hsr & Hlen & Hat).
  { rewrite Hwhole, Z.mod_small; lia. }
  rewrite Hwhole, Z.mod_small in Hat by lia.
  exists buffer. repeat split; try assumption.
  apply nth_error_ext. intro c. unfold channelLengths.
  rewrite nth_error_map.
  destruct (Nat.lt_ge_cases c (Z.to_nat numChannels)) as [Hc | Hc].
  - destruct (Hat (Z.of_nat c) ltac:(lia)) as (d & Hd & Hdlen & _).
    rewrite getElement_nat in Hd. rewrite Hd. cbn [option_map].
    rewrite nth_error_repeat by exact Hc. now rewrite Hdlen.
  - assert (E : nth_error (channels buffer) c = None) by (apply nth_error_None; lia).
    rewrite E. symmetry. apply nth_error_None. rewrite repeat_length. exact Hc.
Qed.

End DecoderShape.

(** C1 (as amended).  A payload of even length that holds at least one whole
    frame decodes, without an error being raised, to
    [floor(length / (2 * numChannels))] frames per channel, whether or not its
    length is a multiple of [2 * numChannels]: the bytes after the last whole
    frame are dropped. *)
Theorem decode_truncates_to_whole_frames m data ctx sampleRate numChannels :
  supports ctx numChannels sampleRate ->
  Z.of_nat (List.length data) mod 2 = 0 ->
  1 <= wholeFrames data numChannels < 2 ^ 32 ->
  exists buffer,
    decodePcmData m data ctx sampleRate numChannels = Ok buffer
    /\ channelLengths buffer
       = repeat (wholeFrames data numChannels) (Z.to_nat numChannels).
Proof.
  intros Hsup Heven Hframes.
  destruct (decoded_shape m data ctx sampleRate numChannels
              (wholeFrames data numChannels) Heven Hsup Hframes eq_refl)
    as (buffer & Hrun & _ & _ & Hlens).
  exists buffer. split; assumption.
Qed.

(** Six bytes in two channels: three samples, one whole frame. *)
Lemma decode_truncates_to_whole_frames_witness :
  let data := [x01; x00; x02; x00; x03; x00] in
  supports leastContext 2 24000
  /\ Z.of_nat (List.length data) mod 2 = 0
  /\ 1 <= wholeFrames data 2 < 2 ^ 32
  /\ Z.of_nat (List.length data) mod (2 * 2) <> 0
  /\ exists buffer,
       decodePcmData plainMessages data leastContext 24000 2 = Ok buffer
       /\ channelLengths buffer = repeat (wholeFrames data 2) (Z.to_nat 2).
Proof.
  assert (Hsup : supports leastContext 2 24000) by (unfold supports; cbn; lia).
  assert (Heven : Z.of_nat (List.length [x01; x00; x02; x00; x03; x00]) mod 2 = 0)
    by reflexivity.
  assert (Hframes : 1 <= wholeFrames [x01; x00; x02; x00; x03; x00] 2 < 2 ^ 32)
    by (vm_compute; split; [discriminate | reflexivity]).
  split; [exact Hsup |]. split; [exact Heven |]. split; [exact Hframes |].
  split; [vm_compute; discriminate |].
  exact (decode_truncates_to_whole_frames plainMessages _ leastContext 24000 2
           Hsup Heven Hframes).
Defined.

(** C1 (as stated) fails: three bytes in one channel are not a multiple of
    [2 * numChannels] bytes, and the [Int16Array] constructor raises. *)
Lemma odd_payload_raises :
  let data := [x01; x02; x03] in
  Z.of_nat (List.length data) mod (2 * 1) <> 0
  /\ decodePcmData plainMessages data leastContext 24000 1
     = Throw (ErrorInstance "RangeError" (rangeErrorMessage plainMessages)).
Proof. split; [vm_compute; discriminate | reflexivity]. Qed.

(** The same holds of every payload of odd length. *)
Lemma odd_length_raises m data ctx sampleRate numChannels :
  Z.of_nat (List.length data) mod 2 <> 0 ->
  decodePcmData m data ctx sampleRate numChannels
  = Throw (ErrorInstance "RangeError" (rangeErrorMessage m)).
Proof.
  intro H. unfold decodePcmData, newInt16Array.
  destruct (Z.eqb_spec (Z.of_nat (List.length data) mod 2) 0); [contradiction |].
  reflexivity.
Qed.

(** A payload shorter than one frame is rejected by [createBuffer]. *)
Lemma short_payload_raises m data ctx sampleRate numChannels :
  1 <= numChannels ->
  Z.of_nat (List.length data) mod 2 = 0 ->
  wholeFrames data numChannels = 0 ->
  decodePcmData m data ctx sampleRate numChannels
  = Throw (ErrorInstance "NotSupportedError" (notSupportedMessage m)).
Proof.
  intros Hn Heven Hzero. rewrite wholeFrames_view in Hzero by exact Hn.
  unfold decodePcmData, newInt16Array. rewrite Heven. cbn [Z.eqb bind].
  unfold createBuffer. rewrite toUnsignedLong_divide, Hzero by lia.
  change (0 mod 2 ^ 32) with 0. change (1 <=? 0) with false.
  rewrite andb_false_r. reflexivity.
Qed.

(** C3 (as amended).  A payload of exactly [2 * numChannels * N] bytes with
    [N >= 1] decodes to a buffer of [numChannels] sample arrays, each of
    length [N]. *)
Theorem decode_exact_frames m data ctx sampleRate numChannels N :
  supports ctx numChannels sampleRate ->
  1 <= N < 2 ^ 32 ->
  Z.of_nat (List.length data) = 2 * numChannels * N ->
  exists buffer,
    decodePcmData m data ctx sampleRate numChannels = Ok buffer
    /\ numberOfChannels buffer = numChannels
    /\ channelLengths buffer = repeat N (Z.to_nat numChannels).
Proof.
  intros Hsup HN Hlen.
  assert (Hn : 1 <= numChannels) by (destruct Hsup; lia).
  destruct (decoded_shape m data ctx sampleRate numChannels N) as
    (buffer & Hrun & _ & Hch & Hlens); try assumption.
  - rewrite Hlen, <- Z.mul_assoc, Z.mul_comm. apply Z.mod_mul. lia.
  - unfold wholeFrames. rewrite Hlen, Z.mul_comm. apply Z.div_mul. lia.
  - exists buffer. repeat split; assumption.
Qed.

(** Eight bytes in two channels: two frames. *)
Lemma decode_exact_frames_witness :
  let data := [x01; x00; x02; x00; x03; x00; x04; x00] in
  supports leastContext 2 24000
  /\ 1 <= 2 < 2 ^ 32
  /\ Z.of_nat (List.length data) = 2 * 2 * 2
  /\ exists buffer,
       decodePcmData plainMessages data leastContext 24000 2 = Ok buffer
       /\ numberOfChannels buffer = 2
       /\ channelLengths buffer = repeat 2 (Z.to_nat 2).
Proof.
  assert (Hsup : supports leastContext 2 24000) by (unfold supports; cbn; lia).
  assert (HN : 1 <= 2 < 2 ^ 32) by (split; [lia | reflexivity]).
  split; [exact Hsup |]. split; [exact HN |]. split; [reflexivity |].
  exact (decode_exact_frames plainMessages
           [x01; x00; x02; x00; x03; x00; x04; x00] leastContext 24000 2 2
           Hsup HN eq_refl).
Defined.

(** C3 (as stated) fails at [N = 0]: [createBuffer] rejects a length of zero
    frames. *)
Lemma empty_payload_raises :
  let data := @nil byte in
  Z.of_nat (List.length data) = 2 * 1 * 0
  /\ decodePcmData plainMessages data leastContext 24000 1
     = Throw (ErrorInstance "NotSupportedError" (notSupportedMessage plainMessages)).
Proof. split; reflexivity. Qed.

(** Every sample of a returned buffer was computed on line 35 from the view
    element at the interleaved position of its channel and frame. *)
Lemma decoded_sample_at m data ctx sampleRate numChannels buffer c :
  1 <= numChannels ->
  decodePcmData m data ctx sampleRate numChannels = Ok buffer ->
  0 <= c < numChannels ->
  exists d,
    getElement (channels buffer) c = Some d
    /\ forall i, 0 <= i < Z.of_nat (List.length d) ->
         exists v,
           int16LittleEndianAt data (i * numChannels + c) = Some v
           /\ -32768 <= v <= 32767
           /\ getElement d i = Some (sampleOf (Some v)).
Proof.
  intros Hn Hrun Hc.
  destruct (decodePcmData_inv m data ctx sampleRate numChannels buffer Hn Hrun)
    as (Heven & Hsup & Hframes).
  destruct (decodePcmData_ok m data ctx sampleRate numChannels Heven Hsup Hframes)
    as (buffer' & Hrun' & _ & _ & Hat).
  assert (buffer' = buffer) as -> by congruence.
  destruct (Hat c Hc) as (d & Hd & Hdlen & Hsamples).
  exists d. split; [exact Hd |].
  intros i Hi. rewrite Hdlen in Hi.
  pose proof (frames_le_quotient data numChannels Hn) as Hle.
  destruct (quotient_index data numChannels i c Hn ltac:(lia) Hc) as [Hidx _].
  destruct (getElement_in_bounds (int16Elements data) (i * numChannels + c) Hidx)
    as [v Hv].
  exists v. split; [| split].
  - rewrite <- Hv, <- (Z2Nat.id (i * numChannels + c)) by lia.
    rewrite getElement_nat. symmetry. apply int16Elements_at.
  - exact (int16Elements_range data _ v Hv).
  - rewrite (Hsamples i Hi), Hv. reflexivity.
Qed.

(** C2.  In a buffer the decoder returns, the sample of channel [c] at frame
    [i] is the signed 16-bit little-endian integer at interleaved position
    [i * numChannels + c] of the byte stream, divided by 32768.0; the float
    stored has exactly that quotient for value. *)
Theorem decoded_sample_is_scaled_integer m data ctx sampleRate numChannels buffer c :
  1 <= numChannels ->
  decodePcmData m data ctx sampleRate numChannels = Ok buffer ->
  0 <= c < numChannels ->
  exists d,
    getElement (channels buffer) c = Some d
    /\ forall i, 0 <= i < Z.of_nat (List.length d) ->
         exists v q,
           int16LittleEndianAt data (i * numChannels + c) = Some v
           /\ sampleAt buffer c i
              = Some (Float.toFloat32
                        (Float.div (Float.ofInteger v) (Float.ofInteger 32768)))
           /\ Float.toQ (Float.toFloat32
                           (Float.div (Float.ofInteger v) (Float.ofInteger 32768)))
              = Some q
           /\ (q == v # 32768)%Q.
Proof.
  intros Hn Hrun Hc.
  destruct (decoded_sample_at m data ctx sampleRate numChannels buffer c Hn Hrun Hc)
    as (d & Hd & Hat).
  exists d. split; [exact Hd |].
  intros i Hi. destruct (Hat i Hi) as (v & Hv & Hrange & Hsample).
  destruct (sampleOf_exact v Hrange) as (q & Hq & Hval).
  exists v, q. repeat split; try assumption.
  unfold sampleAt. rewrite Hd. exact Hsample.
Qed.

(** Two channels, two frames: the second channel holds the integers at the
    odd positions. *)
Lemma decoded_sample_is_scaled_integer_witness :
  let data := [x00; x80; xff; x7f; x03; x00; xff; xff] in
  let buffer :=
    {| sampleRate := 24000;
       channels := [[S754_finite true 8388608 (-23); S754_finite false 12582912 (-37)];
                    [S754_finite false 16776704 (-24); S754_finite true 8388608 (-38)]] |} in
  1 <= 2
  /\ decodePcmData plainMessages data leastContext 24000 2 = Ok buffer
  /\ 0 <= 1 < 2
  /\ exists d,
       getElement (channels buffer) 1 = Some d
       /\ forall i, 0 <= i < Z.of_nat (List.length d) ->
            exists v q,
              int16LittleEndianAt data (i * 2 + 1) = Some v
              /\ sampleAt buffer 1 i
                 = Some (Float.toFloat32
                           (Float.div (Float.ofInteger v) (Float.ofInteger 32768)))
              /\ Float.toQ (Float.toFloat32
                              (Float.div (Float.ofInteger v) (Float.ofInteger 32768)))
                 = Some q
              /\ (q == v # 32768)%Q.
Proof.
  assert (H1 : 1 <= 2) by lia.
  assert (H2 : 0 <= 1 < 2) by lia.
  split; [exact H1 |]. split; [reflexivity |]. split; [exact H2 |].
  exact (decoded_sample_is_scaled_integer plainMessages
           [x00; x80; xff; x7f; x03; x00; xff; xff] leastContext 24000 2 _ 1
           H1 eq_refl H2).
Defined.

Lemma silent_sample frames channelCount c i x :
  chain (getElement (repeat (repeat (S754_zero false) frames) channelCount) c)
    (fun d => getElement d i) = Some x ->
  x = S754_zero false.
Proof.
  unfold chain, getElement.
  destruct (c <? 0); [discriminate |].
  destruct (nth_error _ (Z.to_nat c)) as [d |] eqn:Hd; [| discriminate].
  apply nth_error_In, repeat_spec in Hd. subst d.
  destruct (i <? 0); [discriminate |].
  intro Hx. apply nth_error_In, repeat_spec in Hx. exact Hx.
Qed.

(** The value of every sample of a returned buffer. *)
Lemma decoded_sample_value m data ctx sampleRate numChannels buffer c i x :
  decodePcmData m data ctx sampleRate numChannels = Ok buffer ->
  sampleAt buffer c i = Some x ->
  exists v q, -32768 <= v <= 32767 /\ Float.toQ x = Some q /\ (q == v # 32768)%Q.
Proof.
  intros Hrun Hx.
  destruct (Z_lt_ge_dec numChannels 1) as [Hsmall | Hn].
  - (* no channel is visited: the buffer is as [createBuffer] made it *)
    unfold decodePcmData in Hrun.
    destruct (newInt16Array m data) as [dataInt16 | e]; [| discriminate].
    cbn [bind] in Hrun. unfold createBuffer in Hrun.
    match type of Hrun with
    | bind (if ?t then _ else _) _ = _ => destruct t; [| discriminate]
    end.
    cbn [bind] in Hrun.
    replace (Z.to_nat numChannels) with 0%nat in Hrun by lia.
    cbn [fillBuffer] in Hrun. injection Hrun as <-.
    apply silent_sample in Hx. subst x.
    exists 0, 0%Q. repeat split; try lia; reflexivity.
  - unfold sampleAt in Hx.
    destruct (getElement (channels buffer) c) as [d |] eqn:Hd; [| discriminate].
    cbn [chain] in Hx.
    assert (Hc : 0 <= c < numChannels).
    { apply getElement_Some_bounds in Hd.
      destruct (decodePcmData_inv m data ctx sampleRate numChannels buffer
                  ltac:(lia) Hrun) as (Heven & Hsup & Hframes).
      destruct (decodePcmData_ok m data ctx sampleRate numChannels Heven Hsup Hframes)
        as (buffer' & Hrun' & _ & Hlen & _).
      assert (buffer' = buffer) as -> by congruence. lia. }
    destruct (decoded_sample_at m data ctx sampleRate numChannels buffer c
                ltac:(lia) Hrun Hc) as (d' & Hd' & Hat).
    assert (d' = d) as -> by congruence.
    destruct (Hat i (getElement_Some_bounds d i x Hx)) as (v & _ & Hrange & Hsample).
    assert (x = sampleOf (Some v)) as -> by congruence.
    destruct (sampleOf_exact v Hrange) as (q & Hq & Hval).
    exists v, q. repeat split; try assumption; lia.
Qed.

(** C4.  Every sample the decoder produces lies in [-1, 1): it is at least
    -1 and at most 32767/32768; -1 is produced (from the integer -32768) and
    so is 32767/32768 (from 32767). *)
Theorem decoded_sample_range :
  (forall m data ctx sampleRate numChannels buffer c i x,
     decodePcmData m data ctx sampleRate numChannels = Ok buffer ->
     sampleAt buffer c i = Some x ->
     exists q, Float.toQ x = Some q
       /\ (-1 <= q)%Q /\ (q <= 32767 # 32768)%Q /\ (q < 1)%Q)
  /\ (exists buffer x q,
        decodePcmData plainMessages [x00; x80] leastContext 24000 1 = Ok buffer
        /\ int16LittleEndianAt [x00; x80] 0 = Some (-32768)
        /\ sampleAt buffer 0 0 = Some x
        /\ Float.toQ x = Some q /\ (q == -1)%Q)
  /\ (exists buffer x q,
        decodePcmData plainMessages [xff; x7f] leastContext 24000 1 = Ok buffer
        /\ int16LittleEndianAt [xff; x7f] 0 = Some 32767
        /\ sampleAt buffer 0 0 = Some x
        /\ Float.toQ x = Some q /\ (q == 32767 # 32768)%Q).
Proof.
  split; [| split].
  - intros m data ctx sampleRate numChannels buffer c i x Hrun Hx.
    destruct (decoded_sample_value m data ctx sampleRate numChannels buffer c i x
                Hrun Hx) as (v & q & Hrange & Hq & Hval).
    exists q. split; [exact Hq |].
    rewrite Hval. unfold Qle, Qlt; cbn [Qnum Qden]. lia.
  - do 3 eexists. repeat split.
  - do 3 eexists. repeat split.
Qed.

(** The largest and the smallest integer in one channel. *)
Lemma decoded_sample_range_witness :
  let buffer :=
    {| sampleRate := 24000;
       channels := [[S754_finite true 8388608 (-23); S754_finite false 16776704 (-24)]] |} in
  decodePcmData plainMessages [x00; x80; xff; x7f] leastContext 24000 1 = Ok buffer
  /\ sampleAt buffer 0 1 = Some (S754_finite false 16776704 (-24))
  /\ exists q, Float.toQ (S754_finite false 16776704 (-24)) = Some q
       /\ (-1 <= q)%Q /\ (q <= 32767 # 32768)%Q /\ (q < 1)%Q.
Proof.
  split; [reflexivity |]. split; [reflexivity |].
  exact (proj1 decoded_sample_range plainMessages [x00; x80; xff; x7f]
           leastContext 24000 1 _ 0 1 _ eq_refl eq_refl).
Defined.

(** ** The emotion table *)

Lemma find_emotion (e : Emotion) :
  exists o,
    find (fun o => emotionStrictEquals (id o) e) EMOTIONS = Some o
    /\ In o EMOTIONS /\ id o = e.
Proof.
  destruct e; eexists; (split; [reflexivity |]); split; try reflexivity;
    unfold EMOTIONS; cbn [In]; tauto.
Qed.

(** With the lookup of line 67 succeeding, the synchronous part of the [try]
    block issues its request. *)
Lemma issueRequest_issues env w :
  exists o,
    In o EMOTIONS /\ id o = selectedEmotion (state w)
    /\ issueRequest env w
       = (let request :=
            {| apiKey := API_KEY env;
               model := "gemini-2.5-flash-preview-tts";
               prompt := code_units (promptPrefix o) ++ code_units ": " ++ text (state w);
               responseModalities := ["AUDIO"%string];
               requestSpeakingRate := speakingRate (state w);
               requestVoiceName := selectedVoice (state w) |} in
          (Ok request, emit (ServiceCall request) w)).
Proof.
  destruct (find_emotion (selectedEmotion (state w))) as (o & Hfind & Hin & Hid).
  exists o. split; [exact Hin |]. split; [exact Hid |].
  unfold issueRequest, andThen, readState. rewrite Hfind. reflexivity.
Qed.

(** C10.  For every member of [Emotion] the table holds exactly one option
    with that [id]; the lookup of line 67 finds it, and the branch of lines 68
    to 70 that throws "Invalid emotion selected." is never taken. *)
Theorem emotion_lookup_succeeds :
  forall e : Emotion,
    List.length (filter (fun o => emotionStrictEquals (id o) e) EMOTIONS) = 1%nat
    /\ (exists o,
          find (fun o => emotionStrictEquals (id o) e) EMOTIONS = Some o
          /\ id o = e)
    /\ (forall env w,
          exists request w',
            issueRequest env (setSelectedEmotion e w) = (Ok request, w')).
Proof.
  intro e. split; [| split].
  - destruct e; reflexivity.
  - destruct (find_emotion e) as (o & Hfind & _ & Hid). eauto.
  - intros env w.
    destruct (issueRequest_issues env (setSelectedEmotion e w)) as (o & _ & _ & Hrun).
    rewrite Hrun. eauto.
Qed.

(** ** [handleGenerateSpeech] *)

Lemma trimStart_blank s :
  Forall (fun c => isTrimmable c = true) s -> trimStart s = [].
Proof.
  induction 1 as [| c s Hc _ IH]; [reflexivity |].
  cbn [trimStart]. now rewrite Hc.
Qed.

(** Text made of white space only is empty after trimming. *)
Lemma trim_blank s :
  Forall (fun c => isTrimmable c = true) s -> trim s = [].
Proof. intro H. unfold trim. now rewrite (trimStart_blank s H). Qed.

Lemma submit_rejected env w :
  preconditionFails env (state w) = true ->
  submit env w = Returned (setError (Some preconditionMessage) w).
Proof. intro H. unfold submit. now rewrite H. Qed.

(** Past the test of line 56 the handler goes as far as the [await]. *)
Lemma submit_accepted env w :
  preconditionFails env (state w) = false ->
  exists o,
    In o EMOTIONS /\ id o = selectedEmotion (state w)
    /\ submit env w
       = (let w1 := setAudioBuffer None (setError None (setIsLoading true w)) in
          let request :=
            {| apiKey := API_KEY env;
               model := "gemini-2.5-flash-preview-tts";
               prompt := code_units (promptPrefix o) ++ code_units ": " ++ text (state w);
               responseModalities := ["AUDIO"%string];
               requestSpeakingRate := speakingRate (state w);
               requestVoiceName := selectedVoice (state w) |} in
          Awaiting (emit (ServiceCall request) w1) request).
Proof.
  intro H. unfold submit. rewrite H.
  destruct (issueRequest_issues env
              (setAudioBuffer None (setError None (setIsLoading true w))))
    as (o & Hin & Hid & Hrun).
  exists o. split; [exact Hin |]. split; [exact Hid |].
  rewrite Hrun. reflexivity.
Qed.

(** C5.  When the text is empty after trimming (white space only included)
    or the API key is missing, the handler sets the precondition message and
    returns: nothing else changes and no call to the service is issued. *)
Theorem precondition_failure_returns_early env w :
  trim (text (state w)) = []
  \/ Forall (fun c => isTrimmable c = true) (text (state w))
  \/ truthyOpt (API_KEY env) = false ->
  submit env w = Returned (setError (Some preconditionMessage) w)
  /\ handleGenerateSpeech env w = setError (Some preconditionMessage) w
  /\ error (state (handleGenerateSpeech env w)) = Some preconditionMessage
  /\ trace (handleGenerateSpeech env w) = trace w.
Proof.
  intro H.
  assert (Hfail : preconditionFails env (state w) = true).
  { unfold preconditionFails. destruct H as [H | [H | H]].
    - now rewrite H.
    - now rewrite (trim_blank _ H).
    - rewrite H. apply orb_true_r. }
  pose proof (submit_rejected env w Hfail) as Hsubmit.
  unfold handleGenerateSpeech. rewrite Hsubmit. repeat split.
Qed.

(** Blank text with a key configured. *)
Lemma precondition_failure_returns_early_witness :
  let env := collaborators (Some (code_units "key")) (answering None) in
  let w := typed "   " in
  (trim (text (state w)) = []
   \/ Forall (fun c => isTrimmable c = true) (text (state w))
   \/ truthyOpt (API_KEY env) = false)
  /\ submit env w = Returned (setError (Some preconditionMessage) w)
  /\ handleGenerateSpeech env w = setError (Some preconditionMessage) w
  /\ error (state (handleGenerateSpeech env w)) = Some preconditionMessage
  /\ trace (handleGenerateSpeech env w) = trace w.
Proof.
  assert (H : trim (text (state (typed "   "))) = []
              \/ Forall (fun c => isTrimmable c = true) (text (state (typed "   ")))
              \/ truthyOpt (API_KEY (collaborators (Some (code_units "key"))
                                       (answering None))) = false)
    by (left; reflexivity).
  split; [exact H |].
  exact (precondition_failure_returns_early
           (collaborators (Some (code_units "key")) (answering None))
           (typed "   ") H).
Defined.

(** C8.  A run that passes the test of line 56 sends the service the prompt
    [<promptPrefix>: <text>], the prefix being that of the option of
    [EMOTIONS] whose [id] is the selected emotion and the text being the text
    as typed. *)
Theorem prompt_is_prefix_colon_text env w :
  preconditionFails env (state w) = false ->
  exists o w' request,
    In o EMOTIONS
    /\ id o = selectedEmotion (state w)
    /\ submit env w = Awaiting w' request
    /\ trace w' = trace w ++ [ServiceCall request]
    /\ prompt request
       = code_units (promptPrefix o) ++ code_units ": " ++ text (state w).
Proof.
  intro H. destruct (submit_accepted env w H) as (o & Hin & Hid & Hsubmit).
  exists o. do 2 eexists. split; [exact Hin |]. split; [exact Hid |].
  split; [exact Hsubmit |]. split; reflexivity.
Qed.

(** [Hi] said happily. *)
Lemma prompt_is_prefix_colon_text_witness :
  let env := collaborators (Some (code_units "key")) (answering None) in
  let w := typed "Hi" in
  preconditionFails env (state w) = false
  /\ exists o w' request,
       In o EMOTIONS
       /\ id o = selectedEmotion (state w)
       /\ submit env w = Awaiting w' request
       /\ trace w' = trace w ++ [ServiceCall request]
       /\ prompt request
          = code_units (promptPrefix o) ++ code_units ": " ++ text (state w).
Proof.
  split; [reflexivity |].
  exact (prompt_is_prefix_colon_text
           (collaborators (Some (code_units "key")) (answering None))
           (typed "Hi") eq_refl).
Defined.

(** What [catch] and [finally] leave behind. *)
Lemma catchFinally_throw e w :
  let w' := catchFinally (Throw e, w) in
  isLoading (state w') = false
  /\ error (state w') = Some (surfaced e)
  /\ audioBuffer (state w') = audioBuffer (state w)
  /\ audioContextRef (state w') = audioContextRef (state w)
  /\ trace w' = trace w ++ [ConsoleError e].
Proof. repeat split. Qed.

Lemma absent_payload_is_falsy response :
  PayloadAbsent response -> base64AudioOf response = None.
Proof. destruct 1; reflexivity. Qed.

Lemma receiveResponse_no_payload env response w :
  truthyOpt (base64AudioOf response) = false ->
  receiveResponse env response w
  = (Throw (newError "No audio data received from the API."), w).
Proof.
  intro H. unfold receiveResponse, andThen.
  destruct (base64AudioOf response) as [b |]; [| reflexivity].
  cbn [truthyOpt] in H. rewrite H. reflexivity.
Qed.

(** C7.  When the response carries no inline-data payload in the first part
    of its first candidate, the run ends with the message "No audio data
    received from the API." and nothing is decoded: no audio context is
    created, no payload is handed to the decoder, no buffer is stored. *)
Theorem absent_payload_is_empty_response env w w1 request response :
  submit env w = Awaiting w1 request ->
  generateContent env request = Ok response ->
  PayloadAbsent response ->
  let w' := handleGenerateSpeech env w in
  error (state w') = Some (code_units "No audio data received from the API.")
  /\ audioBuffer (state w') = None
  /\ isLoading (state w') = false
  /\ audioContextRef (state w') = audioContextRef (state w)
  /\ trace w'
     = trace w ++ [ServiceCall request;
                   ConsoleError (newError "No audio data received from the API.")].
Proof.
  intros Hsubmit Hresponse Habsent w'. subst w'.
  unfold handleGenerateSpeech. rewrite Hsubmit.
  unfold settle. rewrite Hresponse.
  change (andThen (lift (Ok response)) (receiveResponse env) w1)
    with (receiveResponse env response w1).
  rewrite receiveResponse_no_payload
    by (rewrite (absent_payload_is_falsy response Habsent); reflexivity).
  unfold submit in Hsubmit.
  destruct (preconditionFails env (state w)); [discriminate |].
  destruct (issueRequest_issues env
              (setAudioBuffer None (setError None (setIsLoading true w))))
    as (o & _ & _ & Hrun).
  rewrite Hrun in Hsubmit. cbv zeta in Hsubmit.
  injection Hsubmit as <- <-.
  repeat split. cbn. rewrite <- app_assoc. reflexivity.
Qed.

(** A service answering without data. *)
Lemma absent_payload_is_empty_response_witness :
  let env := collaborators (Some (code_units "key")) (answering None) in
  let w := typed "Hi" in
  exists w1 request response,
    submit env w = Awaiting w1 request
    /\ generateContent env request = Ok response
    /\ PayloadAbsent response
    /\ error (state (handleGenerateSpeech env w))
       = Some (code_units "No audio data received from the API.")
    /\ audioBuffer (state (handleGenerateSpeech env w)) = None
    /\ isLoading (state (handleGenerateSpeech env w)) = false
    /\ audioContextRef (state (handleGenerateSpeech env w)) = audioContextRef (state w)
    /\ trace (handleGenerateSpeech env w)
       = trace w ++ [ServiceCall request;
                     ConsoleError (newError "No audio data received from the API.")].
Proof.
  do 3 eexists.
  split; [reflexivity |]. split; [reflexivity |]. split; [apply no_data |].
  exact (absent_payload_is_empty_response
           (collaborators (Some (code_units "key")) (answering None))
           (typed "Hi") _ _ _ eq_refl eq_refl (no_data [] [])).
Defined.

(** The rest of the [try] block once a payload has been found. *)
Lemma receiveResponse_payload env response payload w :
  base64AudioOf response = Some payload ->
  truthy payload = true ->
  receiveResponse env response w
  = let decodeIn ctx w2 :=
      match bind (decodeBase64 (messages env) payload)
              (fun audioBytes => decodePcmData (messages env) audioBytes ctx 24000 1) with
      | Ok buffer => (Ok tt, setAudioBuffer (Some buffer) w2)
      | Throw e => (Throw e, w2)
      end in
    match audioContextRef (state w) with
    | Some ctx => decodeIn ctx (emit (DecodingStarted payload) w)
    | None =>
        match newAudioContext env 24000 with
        | Ok ctx =>
            decodeIn ctx
              (emit (DecodingStarted payload)
                 (emit AudioContextCreated (setAudioContextRef (Some ctx) w)))
        | Throw e => (Throw e, w)
        end
    end.
Proof.
  intros Hpayload Htruthy. unfold receiveResponse, andThen, readState, lift, perform, ret.
  rewrite Hpayload, Htruthy. cbv zeta.
  destruct (audioContextRef (state w)) as [ctx |].
  - destruct (decodeBase64 (messages env) payload) as [audioBytes | e]; cbn [bind];
      [| reflexivity].
    destruct (decodePcmData (messages env) audioBytes ctx 24000 1); reflexivity.
  - destruct (newAudioContext env 24000) as [ctx | e]; [| reflexivity].
    destruct (decodeBase64 (messages env) payload) as [audioBytes | e]; cbn [bind];
      [| reflexivity].
    destruct (decodePcmData (messages env) audioBytes ctx 24000 1); reflexivity.
Qed.

(** A failure met after the request was issued ends the run in [catch]. *)
Lemma raised_is_caught env w1 request e :
  Raised env w1 request e ->
  exists w2,
    settle env (generateContent env request) w1 = catchFinally (Throw e, w2)
    /\ audioBuffer (state w2) = audioBuffer (state w1).
Proof.
  intro H. unfold settle.
  destruct H as [e Hservice
                | response Hservice Hfalsy
                | response payload e Hservice Hpayload Htruthy Href Hctx
                | response payload ctx e Hservice Hpayload Htruthy Href Hdecode];
    rewrite Hservice.
  - exists w1. split; reflexivity.
  - change (andThen (lift (Ok response)) (receiveResponse env) w1)
      with (receiveResponse env response w1).
    rewrite receiveResponse_no_payload by exact Hfalsy.
    exists w1. split; reflexivity.
  - change (andThen (lift (Ok response)) (receiveResponse env) w1)
      with (receiveResponse env response w1).
    rewrite (receiveResponse_payload env response payload w1 Hpayload Htruthy).
    cbv zeta. rewrite Href, Hctx. exists w1. split; reflexivity.
  - change (andThen (lift (Ok response)) (receiveResponse env) w1)
      with (receiveResponse env response w1).
    rewrite (receiveResponse_payload env response payload w1 Hpayload Htruthy).
    cbv zeta. destruct (audioContextRef (state w1)) as [c |].
    + subst c. rewrite Hdecode. eexists. split; reflexivity.
    + rewrite Href, Hdecode. eexists. split; reflexivity.
Qed.

(** A run that has issued its request ends in a failure or with a buffer. *)
Lemma settle_outcome env w1 request :
  (exists e, Raised env w1 request e)
  \/ (exists buffer w2,
        settle env (generateContent env request) w1
        = setIsLoading false (setAudioBuffer (Some buffer) w2)
        /\ error (state w2) = error (state w1)).
Proof.
  destruct (generateContent env request) as [response | e] eqn:Hservice;
    [| left; exists e; now apply service_failed].
  destruct (truthyOpt (base64AudioOf response)) eqn:Htruthy;
    [| left; eexists; now apply (payload_missing env w1 request response)].
  destruct (base64AudioOf response) as [payload |] eqn:Hpayload; [| discriminate].
  cbn [truthyOpt] in Htruthy.
  unfold settle.
  change (andThen (lift (Ok response)) (receiveResponse env) w1)
    with (receiveResponse env response w1).
  rewrite (receiveResponse_payload env response payload w1 Hpayload Htruthy).
  cbv zeta.
  destruct (audioContextRef (state w1)) as [ctx |] eqn:Href.
  - destruct (bind (decodeBase64 (messages env) payload)
                (fun audioBytes => decodePcmData (messages env) audioBytes ctx 24000 1))
      as [buffer | e] eqn:Hdecode.
    + right. do 2 eexists. split; reflexivity.
    + left. exists e.
      apply (decoding_failed env w1 request response payload ctx e); try assumption.
      now rewrite Href.
  - destruct (newAudioContext env 24000) as [ctx | e] eqn:Hctx;
      [| left; exists e;
         now apply (context_failed env w1 request response payload e)].
    destruct (bind (decodeBase64 (messages env) payload)
                (fun audioBytes => decodePcmData (messages env) audioBytes ctx 24000 1))
      as [buffer | e] eqn:Hdecode.
    + right. do 2 eexists. split; reflexivity.
    + left. exists e.
      apply (decoding_failed env w1 request response payload ctx e); try assumption.
      now rewrite Href.
Qed.

(** C9.  A run that passes the test of line 56 always ends, with
    [isLoading] false.  Every failure met after the request was issued, be it
    of the service call, of the response, of the audio context or of the
    decoding, is caught: the run ends with an error message, which is the
    message of the error thrown whenever the thrown value is an [Error], with
    no buffer stored and the error logged.  A run that meets no failure ends
    with a buffer and no error message. *)
Theorem failures_are_surfaced env w :
  preconditionFails env (state w) = false ->
  let w' := handleGenerateSpeech env w in
  exists w1 request,
    submit env w = Awaiting w1 request
    /\ isLoading (state w') = false
    /\ (forall e, Raised env w1 request e ->
          error (state w') = Some (surfaced e)
          /\ audioBuffer (state w') = None
          /\ In (ConsoleError e) (trace w'))
    /\ (forall name message, Raised env w1 request (ErrorInstance name message) ->
          error (state w') = Some message)
    /\ ((exists e, Raised env w1 request e)
        \/ (error (state w') = None
            /\ exists buffer, audioBuffer (state w') = Some buffer)).
Proof.
  intros Hpre w'. subst w'.
  destruct (submit_accepted env w Hpre) as (o & _ & _ & Hsubmit).
  cbv zeta in Hsubmit.
  unfold handleGenerateSpeech. rewrite Hsubmit.
  do 2 eexists. split; [reflexivity |].
  match goal with
  | |- context [settle env (generateContent env ?r) _] => set (request := r)
  end.
  set (w1 := emit (ServiceCall request) _).
  assert (Hcaught : forall e, Raised env w1 request e ->
            isLoading (state (settle env (generateContent env request) w1)) = false
            /\ error (state (settle env (generateContent env request) w1))
               = Some (surfaced e)
            /\ audioBuffer (state (settle env (generateContent env request) w1)) = None
            /\ In (ConsoleError e)
                 (trace (settle env (generateContent env request) w1))).
  { intros e He.
    destruct (raised_is_caught env w1 request e He) as (w2 & Hsettle & Hbuf).
    rewrite Hsettle.
    destruct (catchFinally_throw e w2) as (Hl & Herr & Hb & _ & Htr).
    split; [exact Hl |]. split; [exact Herr |].
    split; [rewrite Hb, Hbuf; reflexivity |].
    rewrite Htr. apply in_or_app. right. left. reflexivity. }
  split; [| split; [| split]].
  - destruct (settle_outcome env w1 request) as [[e He] | (buffer & w2 & Hsettle & _)].
    + apply (Hcaught e He).
    + rewrite Hsettle. reflexivity.
  - intros e He. destruct (Hcaught e He) as (_ & Herr & Hbuf & Hlog). auto.
  - intros name message He. destruct (Hcaught _ He) as (_ & Herr & _). exact Herr.
  - destruct (settle_outcome env w1 request) as [H | (buffer & w2 & Hsettle & Herr)].
    + left. exact H.
    + right. rewrite Hsettle. split; [| exists buffer; reflexivity].
      cbn. cbn in Herr. exact Herr.
Qed.

(** A service that fails with an [Error]. *)
Lemma failures_are_surfaced_witness :
  let env := collaborators (Some (code_units "key"))
               (fun _ => Throw (ErrorInstance "ApiError" (code_units "quota exceeded"))) in
  let w := typed "Hi" in
  preconditionFails env (state w) = false
  /\ exists w1 request,
       submit env w = Awaiting w1 request
       /\ isLoading (state (handleGenerateSpeech env w)) = false
       /\ (forall e, Raised env w1 request e ->
             error (state (handleGenerateSpeech env w)) = Some (surfaced e)
             /\ audioBuffer (state (handleGenerateSpeech env w)) = None
             /\ In (ConsoleError e) (trace (handleGenerateSpeech env w)))
       /\ (forall name message, Raised env w1 request (ErrorInstance name message) ->
             error (state (handleGenerateSpeech env w)) = Some message)
       /\ ((exists e, Raised env w1 request e)
           \/ (error (state (handleGenerateSpeech env w)) = None
               /\ exists buffer,
                    audioBuffer (state (handleGenerateSpeech env w)) = Some buffer)).
Proof.
  split; [reflexivity |].
  exact (failures_are_surfaced
           (collaborators (Some (code_units "key"))
              (fun _ => Throw (ErrorInstance "ApiError" (code_units "quota exceeded"))))
           (typed "Hi") eq_refl).
Defined.

(** ** The request state *)

(** What the second half of a run does to the three state variables, whatever
    the promise settles to. *)
Ltac run_caught :=
  split; [reflexivity | right; split; [reflexivity | eexists; reflexivity]].

Ltac run_stored :=
  split; [reflexivity | left; split; [reflexivity | eexists; reflexivity]].

Lemma settle_flags env outcome w :
  let w' := settle env outcome w in
  isLoading (state w') = false
  /\ ((error (state w') = error (state w)
       /\ exists buffer, audioBuffer (state w') = Some buffer)
      \/ (audioBuffer (state w') = audioBuffer (state w)
          /\ exists message, error (state w') = Some message)).
Proof.
  cbv zeta. unfold settle.
  destruct outcome as [response | e]; [| run_caught].
  change (andThen (lift (Ok response)) (receiveResponse env) w)
    with (receiveResponse env response w).
  destruct (truthyOpt (base64AudioOf response)) eqn:Htruthy.
  - destruct (base64AudioOf response) as [payload |] eqn:Hpayload; [| discriminate].
    cbn [truthyOpt] in Htruthy.
    rewrite (receiveResponse_payload env response payload w Hpayload Htruthy).
    cbv zeta.
    destruct (audioContextRef (state w)) as [ctx |].
    + destruct (bind _ _) as [buffer | e]; [run_stored | run_caught].
    + destruct (newAudioContext env 24000) as [ctx | e]; [| run_caught].
      destruct (bind _ _) as [buffer | e]; [run_stored | run_caught].
  - rewrite receiveResponse_no_payload by exact Htruthy. run_caught.
Qed.

Lemma initial_consistent key : consistent key initialApp.
Proof.
  split; cbn; intro H; [discriminate |].
  split; [reflexivity |]. split; [left; reflexivity | intros _; reflexivity].
Qed.

(** Every handler turn keeps the component consistent. *)
Lemma step_consistent key a a' :
  consistent key a -> step key a a' -> consistent key a'.
Proof.
  intros [Hbusy Hquiet] Hstep.
  destruct Hstep as [a v Hl | a v Hl | a v Hl | a v Hl
                    | a env Hkey Hguard
                    | a env before request after outcome Hkey Hin
                    | a buffer Hbuf Hl].
  1-4: split; cbn; intro H; [rewrite Hl in H; discriminate | exact (Hquiet Hl)].
  - (* the Generate button *)
    apply orb_false_iff in Hguard. destruct Hguard as [Hl Htext].
    apply negb_false_iff in Htext.
    destruct (Hquiet Hl) as (Hnone & Hone & Hnokey).
    destruct (preconditionFails env (state (world a))) eqn:Hpre.
    + rewrite (submit_rejected env (world a) Hpre).
      assert (Hk : truthyOpt key = false).
      { unfold preconditionFails in Hpre. rewrite Htext, Hkey in Hpre.
        cbn in Hpre. now apply negb_true_iff in Hpre. }
      split; cbn; intro H; [rewrite Hl in H; discriminate |].
      split; [exact Hnone |]. split; [right; exact (Hnokey Hk) | exact Hnokey].
    + destruct (submit_accepted env (world a) Hpre) as (o & _ & _ & Hsubmit).
      rewrite Hsubmit. cbv zeta.
      assert (Hk : truthyOpt key = true).
      { unfold preconditionFails in Hpre. rewrite Htext, Hkey in Hpre.
        cbn in Hpre. now apply negb_false_iff in Hpre. }
      split; cbn; intro H; [| discriminate].
      split; [reflexivity |]. split; [reflexivity |]. split; [exact Hk |].
      rewrite Hnone. eexists. reflexivity.
  - (* the promise settles *)
    destruct (isLoading (state (world a))) eqn:Hl.
    + destruct (Hbusy eq_refl) as (Herr & Hbuf & Hk & only & Honly).
      rewrite Honly in Hin.
      assert (before = [] /\ after = []) as [-> ->].
      { destruct before as [| x [| y before]]; cbn in Hin.
        - injection Hin as _ <-. split; reflexivity.
        - injection Hin as _ Hin. discriminate Hin.
        - injection Hin as _ Hin. discriminate Hin. }
      destruct (settle_flags env outcome (world a)) as (Hl' & Hflags).
      split; cbn [world inFlight app]; intro H; [rewrite Hl' in H; discriminate |].
      split; [reflexivity |].
      rewrite Herr, Hbuf in Hflags.
      destruct Hflags as [(He & _) | (Hb & _)].
      * split; [left; exact He | intro Hno; rewrite Hno in Hk; discriminate].
      * split; [right; exact Hb | intros _; exact Hb].
    + destruct (Hquiet eq_refl) as (Hnone & _). rewrite Hnone in Hin.
      destruct before; discriminate Hin.
  - (* the Play button *)
    assert (Hsame : state (playAudio (world a)) = state (world a)).
    { unfold playAudio. destruct (audioBuffer _); [| reflexivity].
      destruct (audioContextRef _); reflexivity. }
    split; cbn [world inFlight]; rewrite Hsame; intro H;
      [rewrite Hl in H; discriminate | exact (Hquiet Hl)].
Qed.

Lemma reachable_consistent key a : reachable key a -> consistent key a.
Proof.
  induction 1 as [| a a' _ IH Hstep].
  - apply initial_consistent.
  - exact (step_consistent key a a' IH Hstep).
Qed.





(** The guard of the Generate button matters here: called on blank text with
    a buffer stored, the handler sets its message and keeps the buffer. *)
Remark blank_text_keeps_the_buffer env w buffer :
  audioBuffer (state w) = Some buffer ->
  trim (text (state w)) = [] ->
  error (state (handleGenerateSpeech env w)) = Some preconditionMessage
  /\ audioBuffer (state (handleGenerateSpeech env w)) = Some buffer.
Proof.
  intros Hbuf Hblank.
  assert (Hfail : preconditionFails env (state w) = true).
  { unfold preconditionFails. now rewrite Hblank. }
  unfold handleGenerateSpeech. rewrite (submit_rejected env w Hfail).
  split; [reflexivity | exact Hbuf].
Qed.

(** ** A whole run against a service with a fixed payload *)

(** The payload [AID/fw==] holds the two integers -32768 and 32767: the run
    stores a buffer of one channel with the samples -1 and 32767/32768. *)
Example run_with_fixed_payload :
  let env := collaborators (Some (code_units "key"))
               (answering (Some (code_units "AID/fw=="))) in
  let w' := handleGenerateSpeech env (typed "Hi") in
  error (state w') = None
  /\ isLoading (state w') = false
  /\ audioBuffer (state w')
     = Some {| sampleRate := 24000;
               channels := [[S754_finite true 8388608 (-23);
                             S754_finite false 16776704 (-24)]] |}
  /\ exists request,
       trace w' = [ServiceCall request; AudioContextCreated;
                   DecodingStarted (code_units "AID/fw==")]
       /\ prompt request = code_units "Say cheerfully: Hi".
Proof. repeat split. eexists. split; reflexivity. Qed.

(** ** A run that succeeds *)

Lemma conforming_supports ctx : conforming ctx -> supports ctx 1 24000.
Proof.
  intros (Hch & Hmin & Hmax). unfold supports.
  change (2 ^ 32) with 4294967296. lia.
Qed.

(** On a conforming platform, a payload that decodes to an even number of
    bytes, two at least, ends the run with a mono buffer of one sample for
    every two bytes and no error message. *)
Corollary run_stores_the_decoded_buffer env w w1 request response payload ctx audioBytes :
  submit env w = Awaiting w1 request ->
  generateContent env request = Ok response ->
  base64AudioOf response = Some payload ->
  truthy payload = true ->
  match audioContextRef (state w) with
  | Some c => c = ctx
  | None => newAudioContext env 24000 = Ok ctx
  end ->
  conforming ctx ->
  decodeBase64 (messages env) payload = Ok audioBytes ->
  Z.of_nat (List.length audioBytes) mod 2 = 0 ->
  2 <= Z.of_nat (List.length audioBytes) < 2 ^ 33 ->
  let w' := handleGenerateSpeech env w in
  error (state w') = None
  /\ isLoading (state w') = false
  /\ exists buffer,
       audioBuffer (state w') = Some buffer
       /\ channelLengths buffer = [Z.of_nat (List.length audioBytes) / 2].
Proof.
  intros Hsubmit Hresponse Hpayload Htruthy Hctx Hconf Hbytes Heven Hlen w'. subst w'.
  assert (Hframes : wholeFrames audioBytes 1 = Z.of_nat (List.length audioBytes) / 2)
    by reflexivity.
  assert (Hrange : 1 <= Z.of_nat (List.length audioBytes) / 2 < 2 ^ 32).
  { change (2 ^ 33) with (2 * 2 ^ 32) in Hlen. split.
    - apply Z.div_le_lower_bound; lia.
    - apply Z.div_lt_upper_bound; lia. }
  destruct (decoded_shape (messages env) audioBytes ctx 24000 1
              (Z.of_nat (List.length audioBytes) / 2) Heven
              (conforming_supports ctx Hconf) Hrange Hframes)
    as (buffer & Hdecode & _ & _ & Hshape).
  unfold handleGenerateSpeech. rewrite Hsubmit.
  unfold submit in Hsubmit.
  destruct (preconditionFails env (state w)); [discriminate |].
  destruct (issueRequest_issues env
              (setAudioBuffer None (setError None (setIsLoading true w))))
    as (o & _ & _ & Hrun).
  rewrite Hrun in Hsubmit. cbv zeta in Hsubmit. injection Hsubmit as <- <-.
  unfold settle. rewrite Hresponse.
  match goal with
  | |- context [andThen (lift (Ok response)) (receiveResponse env) ?v] =>
      change (andThen (lift (Ok response)) (receiveResponse env) v)
        with (receiveResponse env response v);
      rewrite (receiveResponse_payload env response payload v Hpayload Htruthy)
  end.
  cbv zeta. cbn [emit state setAudioBuffer setError setIsLoading onState audioContextRef].
  destruct (audioContextRef (state w)) as [c |].
  - subst c. rewrite Hbytes. cbn [bind]. rewrite Hdecode.
    repeat split. exists buffer. split; [reflexivity | exact Hshape].
  - rewrite Hctx, Hbytes. cbn [bind]. rewrite Hdecode.
    repeat split. exists buffer. split; [reflexivity | exact Hshape].
Qed.

(** * Further properties *)

(** ** [decodeBase64] *)

Section Base64Facts.

(** A check that holds of the 64 sextets holds of every sextet. *)
Lemma below_64 (P : N -> bool) :
  forallb P (List.map N.of_nat (seq 0 64)) = true ->
  forall v, (v < 64)%N -> P v = true.
Proof.
  intros H v Hv. rewrite forallb_forall in H. apply H.
  rewrite <- (N2Nat.id v). apply in_map, in_seq. lia.
Qed.

Lemma base64Value_base64Char v :
  (v < 64)%N -> base64Value (base64Char v) = Some v.
Proof.
  intro Hv.
  assert (H : (match base64Value (base64Char v) with
               | Some x => x =? v
               | None => false
               end)%N = true).
  { revert v Hv. apply below_64. vm_compute. reflexivity. }
  destruct (base64Value (base64Char v)); [| discriminate].
  apply N.eqb_eq in H. now subst.
Qed.

Lemma base64Char_plain v :
  (v < 64)%N ->
  isAsciiWhitespace (base64Char v) = false /\ base64Char v <> 61%N.
Proof.
  intro Hv.
  assert (H : negb (isAsciiWhitespace (base64Char v))
              && negb (base64Char v =? 61)%N = true).
  { revert v Hv. apply below_64. vm_compute. reflexivity. }
  apply andb_true_iff in H. destruct H as [H1 H2].
  apply negb_true_iff in H1, H2. split; [exact H1 |].
  now apply N.eqb_neq.
Qed.

Lemma byte_below (b : byte) : (Byte.to_N b < 256)%N.
Proof. pose proof (Byte.to_N_bounded b). lia. Qed.

Lemma three_bytes_induction (P : list byte -> Prop) :
  P [] -> (forall a, P [a]) -> (forall a b, P [a; b]) ->
  (forall a b c rest, P rest -> P (a :: b :: c :: rest)) ->
  forall bytes, P bytes.
Proof.
  intros H0 H1 H2 H3 bytes.
  assert (G : forall n l, (List.length l <= n)%nat -> P l).
  { induction n as [| n IH]; intros [| a [| b [| c rest]]] Hl; cbn in Hl;
      try lia; auto.
    apply H3, IH. lia. }
  apply (G (List.length bytes)). lia.
Qed.

Lemma sextetsOf_below bytes : Forall (fun v => (v < 64)%N) (sextetsOf bytes).
Proof.
  induction bytes as [| a | a b | a b c rest IH] using three_bytes_induction;
    cbn [sextetsOf]; cbv zeta;
    try pose proof (byte_below a); try pose proof (byte_below b);
    try pose proof (byte_below c);
    repeat constructor; try exact IH;
    zify; Z.to_euclidean_division_equations; lia.
Qed.

Lemma octets_sextetsOf bytes :
  octets (sextetsOf bytes) = List.map Byte.to_N bytes.
Proof.
  induction bytes as [| a | a b | a b c rest IH] using three_bytes_induction;
    cbn [sextetsOf octets List.map]; cbv zeta;
    try pose proof (byte_below a); try pose proof (byte_below b);
    try pose proof (byte_below c).
  - reflexivity.
  - f_equal. zify; Z.to_euclidean_division_equations; lia.
  - f_equal; [| f_equal]; zify; Z.to_euclidean_division_equations; lia.
  - rewrite IH. f_equal; [| f_equal; [| f_equal]];
      zify; Z.to_euclidean_division_equations; lia.
Qed.

Lemma paddingOf_three a b c rest : paddingOf (a :: b :: c :: rest) = paddingOf rest.
Proof.
  unfold paddingOf. cbn [List.length].
  replace (S (S (S (List.length rest)))) with (List.length rest + 1 * 3)%nat by lia.
  now rewrite Nat.Div0.mod_add.
Qed.

(** The padding and the number of sextets go together. *)
Lemma encoding_shape bytes :
  (paddingOf bytes = []
   /\ (N.of_nat (List.length (sextetsOf bytes)) mod 4 = 0)%N)
  \/ (paddingOf bytes = [61%N]
      /\ (N.of_nat (List.length (sextetsOf bytes)) mod 4 = 3)%N)
  \/ (paddingOf bytes = [61%N; 61%N]
      /\ (N.of_nat (List.length (sextetsOf bytes)) mod 4 = 2)%N).
Proof.
  induction bytes as [| a | a b | a b c rest IH] using three_bytes_induction.
  - left. split; reflexivity.
  - right. right. split; reflexivity.
  - right. left. split; reflexivity.
  - rewrite paddingOf_three. cbn [sextetsOf]. cbv zeta. cbn [List.length].
    replace (N.of_nat (S (S (S (S (List.length (sextetsOf rest)))))))
      with (N.of_nat (List.length (sextetsOf rest)) + 1 * 4)%N by lia.
    rewrite N.Div0.mod_add. exact IH.
Qed.

Lemma strip_other (c : N) (l s : jsstring) :
  c <> 61%N ->
  match c :: l with
  | 61%N :: 61%N :: r => rev r
  | 61%N :: r => rev r
  | _ => s
  end = s.
Proof.
  intro H. destruct c as [| p]; [reflexivity |].
  repeat (destruct p as [p | p |]; try reflexivity).
  now contradiction H.
Qed.

Lemma strip_one (c : N) (l s : jsstring) :
  c <> 61%N ->
  match 61%N :: c :: l with
  | 61%N :: 61%N :: r => rev r
  | 61%N :: r => rev r
  | _ => s
  end = rev (c :: l).
Proof.
  intro H. destruct c as [| p]; [reflexivity |].
  repeat (destruct p as [p | p |]; try reflexivity).
  now contradiction H.
Qed.

(** The last character of a run of base64 characters is not [=]. *)
Lemma rev_plain vs :
  Forall (fun v => (v < 64)%N) vs ->
  rev (List.map base64Char vs) = []
  \/ exists c l, rev (List.map base64Char vs) = c :: l /\ c <> 61%N.
Proof.
  intro H. rewrite <- map_rev.
  apply Forall_rev in H. destruct H as [| v l Hv _]; [left; reflexivity |].
  right. exists (base64Char v), (List.map base64Char l).
  split; [reflexivity | apply (base64Char_plain v Hv)].
Qed.

Lemma stripPadding_encodeBase64 bytes :
  stripPadding (encodeBase64 bytes) = List.map base64Char (sextetsOf bytes).
Proof.
  unfold stripPadding, encodeBase64.
  pose proof (rev_plain (sextetsOf bytes) (sextetsOf_below bytes)) as Hrev.
  set (u := List.map base64Char (sextetsOf bytes)) in *.
  assert (Hu : List.length u = List.length (sextetsOf bytes))
    by (unfold u; apply length_map).
  destruct (encoding_shape bytes) as [[Hp Hl] | [[Hp Hl] | [Hp Hl]]];
    rewrite Hp, length_app, Hu; cbn [List.length].
  - rewrite Nat.add_0_r, Hl, app_nil_r. cbn [N.eqb].
    destruct Hrev as [-> | (c & l & -> & Hc)]; [reflexivity |].
    apply strip_other, Hc.
  - replace (N.of_nat (List.length (sextetsOf bytes) + 1))
      with (N.of_nat (List.length (sextetsOf bytes)) + 1)%N by lia.
    rewrite <- N.Div0.add_mod_idemp_l, Hl. cbn [N.add N.modulo N.eqb].
    change ((3 + 1) mod 4 =? 0)%N with true. cbv iota.
    rewrite rev_unit.
    destruct Hrev as [Hnil | (c & l & Hcl & Hc)].
    + apply (f_equal (@List.length N)) in Hnil.
      rewrite length_rev, Hu in Hnil. cbn in Hnil. rewrite Hnil in Hl. discriminate.
    + rewrite Hcl, (strip_one c l (u ++ [61%N]) Hc), <- Hcl. apply rev_involutive.
  - replace (N.of_nat (List.length (sextetsOf bytes) + 2))
      with (N.of_nat (List.length (sextetsOf bytes)) + 2)%N by lia.
    rewrite <- N.Div0.add_mod_idemp_l, Hl.
    change ((2 + 2) mod 4 =? 0)%N with true. cbv iota.
    rewrite rev_app_distr. cbn [rev app]. apply rev_involutive.
Qed.

Lemma sextets_plain vs :
  Forall (fun v => (v < 64)%N) vs -> sextets (List.map base64Char vs) = Some vs.
Proof.
  induction 1 as [| v vs Hv _ IH]; [reflexivity |].
  cbn [List.map sextets]. now rewrite (base64Value_base64Char v Hv), IH.
Qed.

Lemma encodeBase64_no_space bytes :
  filter (fun c => negb (isAsciiWhitespace c)) (encodeBase64 bytes) = encodeBase64 bytes.
Proof.
  apply forallb_filter_id, forallb_forall. intros c Hc.
  unfold encodeBase64 in Hc. apply in_app_or in Hc. destruct Hc as [Hc | Hc].
  - apply in_map_iff in Hc. destruct Hc as (v & <- & Hv).
    pose proof (sextetsOf_below bytes) as Hall. rewrite Forall_forall in Hall.
    now rewrite (proj1 (base64Char_plain v (Hall v Hv))).
  - apply repeat_spec in Hc. now subst c.
Qed.

Lemma toUint8_to_N (b : byte) : toUint8 (Byte.to_N b) = b.
Proof.
  unfold toUint8. rewrite N.mod_small by apply byte_below.
  now rewrite Byte.of_to_N.
Qed.

End Base64Facts.

(** X1.  [decodeBase64] gives back the bytes of every standard base64
    encoding, whatever their number: it inverts the encoding. *)
Theorem decodeBase64_inverts_encoding m bytes :
  decodeBase64 m (encodeBase64 bytes) = Ok bytes.
Proof.
  unfold decodeBase64, atob.
  rewrite encodeBase64_no_space, stripPadding_encodeBase64, length_map.
  assert (Hmod : (N.of_nat (List.length (sextetsOf bytes)) mod 4 =? 1)%N = false).
  { destruct (encoding_shape bytes) as [[_ Hl] | [[_ Hl] | [_ Hl]]];
      rewrite Hl; reflexivity. }
  rewrite Hmod, (sextets_plain _ (sextetsOf_below bytes)). cbn [bind].
  rewrite octets_sextetsOf, map_map. f_equal.
  rewrite <- (map_id bytes) at 2. apply map_ext. exact toUint8_to_N.
Qed.

Section CharCodeFacts.

Lemma base64Value_below c v : base64Value c = Some v -> (v < 64)%N.
Proof.
  unfold base64Value.
  repeat match goal with
         | |- context [(?a <=? ?b)%N] => destruct (N.leb_spec a b)
         | |- context [(?a =? ?b)%N] => destruct (N.eqb_spec a b)
         end; cbn [andb]; intro E; try discriminate; injection E as <-; lia.
Qed.

Lemma sextets_below s vs : sextets s = Some vs -> Forall (fun v => (v < 64)%N) vs.
Proof.
  revert vs. induction s as [| c s IH]; intros vs H; cbn [sextets] in H.
  - injection H as <-. constructor.
  - destruct (base64Value c) as [v |] eqn:Hv; [| discriminate].
    destruct (sextets s) as [vs' |]; [| discriminate].
    injection H as <-. constructor; [exact (base64Value_below c v Hv) | now apply IH].
Qed.

Lemma octets_below vs :
  Forall (fun v => (v < 64)%N) vs -> Forall (fun b => (b < 256)%N) (octets vs).
Proof.
  assert (G : forall n vs, (List.length vs <= n)%nat ->
              Forall (fun v => (v < 64)%N) vs ->
              Forall (fun b => (b < 256)%N) (octets vs)).
  { induction n as [| n IH]; intros [| a [| b [| c [| d rest]]]] Hl H;
      cbn in Hl; try lia; cbn [octets]; try constructor;
      repeat match goal with
             | H : Forall _ (_ :: _) |- _ => inversion_clear H
             end;
      repeat constructor;
      try (apply IH; [lia | assumption]);
      zify; Z.to_euclidean_division_equations; lia. }
  apply (G (List.length vs)). lia.
Qed.

Lemma to_N_toUint8 c : (c < 256)%N -> Byte.to_N (toUint8 c) = c.
Proof.
  intro H. unfold toUint8. rewrite N.mod_small by exact H.
  destruct (Byte.of_N c) as [b |] eqn:Hb.
  - apply Byte.to_of_N. exact Hb.
  - apply Byte.of_N_None_iff in Hb. lia.
Qed.

End CharCodeFacts.

(** X2.  The array [decodeBase64] returns holds the character codes of the
    string of [atob], one for one: the two have the same length and no code
    is changed by the store into the [Uint8Array]. *)
Theorem decodeBase64_keeps_char_codes m base64 bytes :
  decodeBase64 m base64 = Ok bytes ->
  atob m base64 = Ok (List.map Byte.to_N bytes).
Proof.
  unfold decodeBase64. intro H.
  destruct (atob m base64) as [binaryString | e] eqn:Hatob; [| discriminate].
  cbn [bind] in H. injection H as <-.
  assert (Hbelow : Forall (fun b => (b < 256)%N) binaryString).
  { unfold atob in Hatob.
    destruct (_ =? 1)%N; [discriminate |].
    destruct (sextets _) as [vs |] eqn:Hvs; [| discriminate].
    injection Hatob as <-. apply octets_below, (sextets_below _ _ Hvs). }
  f_equal. rewrite map_map. rewrite <- (map_id binaryString) at 1.
  apply map_ext_in. intros c Hc. rewrite Forall_forall in Hbelow.
  symmetry. apply to_N_toUint8, Hbelow, Hc.
Qed.

(** The payload of two samples. *)
Lemma decodeBase64_keeps_char_codes_witness :
  decodeBase64 plainMessages (code_units "AID/fw==") = Ok [x00; x80; xff; x7f]
  /\ atob plainMessages (code_units "AID/fw==")
     = Ok (List.map Byte.to_N [x00; x80; xff; x7f]).
Proof.
  split; [reflexivity |].
  exact (decodeBase64_keeps_char_codes plainMessages (code_units "AID/fw==")
           [x00; x80; xff; x7f] eq_refl).
Defined.

(** ** [decodePcmData] *)

Section ClosedForm.

Lemma getElement_ext {A} (l1 l2 : list A) :
  (forall k, 0 <= k -> getElement l1 k = getElement l2 k) -> l1 = l2.
Proof.
  intro H. apply nth_error_ext. intro n.
  rewrite <- !getElement_nat. apply H. lia.
Qed.

Lemma getElement_outside {A} (l : list A) k :
  Z.of_nat (List.length l) <= k -> getElement l k = None.
Proof.
  intro H. unfold getElement. destruct (Z.ltb_spec k 0); [reflexivity |].
  apply nth_error_None. lia.
Qed.

Lemma getElement_map_seq {A} (f : nat -> A) n k :
  0 <= k ->
  getElement (List.map f (seq 0 n)) k
  = if k <? Z.of_nat n then Some (f (Z.to_nat k)) else None.
Proof.
  intro Hk. unfold getElement. destruct (Z.ltb_spec k 0); [lia |].
  rewrite nth_error_map, nth_error_seq.
  destruct (Nat.ltb_spec (Z.to_nat k) n); destruct (Z.ltb_spec k (Z.of_nat n));
    try lia; reflexivity.
Qed.

Variable m : Messages.
Variable data : list byte.
Variable ctx : AudioContext.
Variables sampleRate numChannels : Z.

(** The buffer written out: channel by channel, frame by frame. *)
Lemma decodePcmData_closed_form buffer :
  1 <= numChannels ->
  decodePcmData m data ctx sampleRate numChannels = Ok buffer ->
  buffer
  = {| Web.sampleRate := sampleRate;
       channels :=
         List.map
           (fun c =>
              List.map
                (fun i =>
                   sampleOf (getElement (int16Elements data)
                               (Z.of_nat i * numChannels + Z.of_nat c)))
                (seq 0 (Z.to_nat
                          ((Z.of_nat (List.length (int16Elements data)) / numChannels)
                           mod 2 ^ 32))))
           (seq 0 (Z.to_nat numChannels)) |}.
Proof.
  intros Hn Hrun.
  destruct (decodePcmData_inv m data ctx sampleRate numChannels buffer Hn Hrun)
    as (Heven & Hsup & Hframes).
  destruct (decodePcmData_ok m data ctx sampleRate numChannels Heven Hsup Hframes)
    as (buffer' & Hrun' & Hsr & Hlen & Hat).
  assert (buffer' = buffer) as -> by congruence.
  destruct buffer as [sr chans]. cbn [Web.sampleRate channels] in *.
  subst sr. f_equal.
  apply getElement_ext. intros c Hc.
  rewrite getElement_map_seq by exact Hc.
  destruct (Z.ltb_spec c (Z.of_nat (Z.to_nat numChannels))) as [Hin | Hout].
  - destruct (Hat c ltac:(lia)) as (d & Hd & Hdlen & Hsamples).
    rewrite Hd. f_equal.
    apply getElement_ext. intros i Hi.
    rewrite getElement_map_seq by exact Hi.
    destruct (Z.ltb_spec i (Z.of_nat (Z.to_nat
               ((Z.of_nat (List.length (int16Elements data)) / numChannels)
                mod 2 ^ 32)))) as [Hfin | Hfout].
    + rewrite (Hsamples i ltac:(lia)), !Z2Nat.id by lia. reflexivity.
    + apply getElement_outside. lia.
  - apply getElement_outside. lia.
Qed.

End ClosedForm.

(** X3.  For a positive channel count, [decodePcmData] returns a buffer
    exactly when the payload has an even number of bytes, [createBuffer]
    accepts the channel count and the rate, and the frame count it is handed is
    not zero; the buffer it returns then has the rate and the number of
    channels asked for. *)
Theorem decodePcmData_succeeds_iff m data ctx sampleRate numChannels :
  1 <= numChannels ->
  ((exists buffer, decodePcmData m data ctx sampleRate numChannels = Ok buffer)
   <-> Z.of_nat (List.length data) mod 2 = 0
       /\ supports ctx numChannels sampleRate
       /\ 1 <= wholeFrames data numChannels mod 2 ^ 32)
  /\ (forall buffer,
        decodePcmData m data ctx sampleRate numChannels = Ok buffer ->
        Web.sampleRate buffer = sampleRate
        /\ numberOfChannels buffer = numChannels).
Proof.
  intro Hn. rewrite (wholeFrames_view data numChannels Hn). split; [split |].
  - intros [buffer Hrun].
    exact (decodePcmData_inv m data ctx sampleRate numChannels buffer Hn Hrun).
  - intros (Heven & Hsup & Hframes).
    destruct (decodePcmData_ok m data ctx sampleRate numChannels Heven Hsup Hframes)
      as (buffer & Hrun & _). eauto.
  - intros buffer Hrun.
    destruct (decodePcmData_inv m data ctx sampleRate numChannels buffer Hn Hrun)
      as (Heven & Hsup & Hframes).
    destruct (decodePcmData_ok m data ctx sampleRate numChannels Heven Hsup Hframes)
      as (buffer' & Hrun' & Hsr & Hlen & _).
    assert (buffer' = buffer) as -> by congruence. split; assumption.
Qed.

(** Stereo on the least platform. *)
Lemma decodePcmData_succeeds_iff_witness :
  let data := [x01; x00; x02; x00; x03; x00] in
  1 <= 2
  /\ ((exists buffer, decodePcmData plainMessages data leastContext 24000 2 = Ok buffer)
      <-> Z.of_nat (List.length data) mod 2 = 0
          /\ supports leastContext 2 24000
          /\ 1 <= wholeFrames data 2 mod 2 ^ 32)
  /\ (forall buffer,
        decodePcmData plainMessages data leastContext 24000 2 = Ok buffer ->
        Web.sampleRate buffer = 24000 /\ numberOfChannels buffer = 2).
Proof.
  assert (H : 1 <= 2) by lia.
  split; [exact H |].
  exact (decodePcmData_succeeds_iff plainMessages [x01; x00; x02; x00; x03; x00]
           leastContext 24000 2 H).
Defined.

(** X4.  Whatever [decodePcmData] throws is an [Error] of the platform: the
    RangeError of the view for an odd number of bytes, the NotSupportedError
    of [createBuffer] for an even number, or the IndexSizeError of
    [getChannelData], the last one only for a channel count of 2^32 or
    more. *)
Theorem decodePcmData_throws_platform_errors m data ctx sampleRate numChannels e :
  decodePcmData m data ctx sampleRate numChannels = Throw e ->
  (e = ErrorInstance "RangeError" (rangeErrorMessage m)
   /\ Z.of_nat (List.length data) mod 2 <> 0)
  \/ (e = ErrorInstance "NotSupportedError" (notSupportedMessage m)
      /\ Z.of_nat (List.length data) mod 2 = 0)
  \/ (e = ErrorInstance "IndexSizeError" (indexSizeMessage m)
      /\ 2 ^ 32 <= numChannels).
Proof.
  unfold decodePcmData, newInt16Array.
  destruct (Z.eqb_spec (Z.of_nat (List.length data) mod 2) 0) as [Heven | Hodd];
    cbn [bind]; [| intro H; injection H as <-; left; split; [reflexivity | exact Hodd]].
  unfold createBuffer.
  match goal with
  | |- bind (if ?t then _ else _) _ = _ -> _ => destruct t eqn:Htest
  end; cbn [bind];
    [| intro H; injection H as <-; right; left; split; [reflexivity | exact Heven]].
  intro Hrun. right. right.
  repeat (apply andb_true_iff in Htest; destruct Htest as [Htest ?]).
  repeat match goal with H : (_ <=? _) = true |- _ => apply Z.leb_le in H end.
  assert (Hkind : forall fuel channel frameCount dataInt16 buffer,
            fillBuffer m fuel channel frameCount dataInt16 numChannels buffer = Throw e ->
            e = ErrorInstance "IndexSizeError" (indexSizeMessage m)).
  { induction fuel as [| fuel IH]; intros channel frameCount dataInt16 buffer Hf;
      cbn [fillBuffer] in Hf; [discriminate |].
    destruct (channel <? numChannels); [| discriminate].
    unfold getChannelData in Hf.
    destruct (getElement (channels buffer) channel); cbn [bind] in Hf.
    - exact (IH _ _ _ _ Hf).
    - injection Hf as <-. reflexivity. }
  split; [exact (Hkind _ _ _ _ _ Hrun) |].
  destruct (Z_lt_ge_dec numChannels (2 ^ 32)) as [Hlt | Hge]; [| lia].
  exfalso.
  destruct (Z_lt_ge_dec numChannels 1) as [Hsmall | Hpos].
  - replace (Z.to_nat numChannels) with 0%nat in Hrun by lia.
    cbn [fillBuffer] in Hrun. discriminate.
  - rewrite Z.mod_small in * by lia.
    match type of Hrun with
    | fillBuffer _ _ _ ?fc ?ints _ ?b = _ =>
        destruct (fillBuffer_ok m ints numChannels (Z.to_nat numChannels) 0 b)
          as (buffer & Hok & _)
    end.
    + lia.
    + lia.
    + cbn [channels]. rewrite repeat_length. lia.
    + assert (Hc : Ok buffer = Throw e) by (rewrite <- Hok; exact Hrun).
      discriminate Hc.
Qed.

(** A payload of three bytes. *)
Lemma decodePcmData_throws_platform_errors_witness :
  decodePcmData plainMessages [x01; x02; x03] leastContext 24000 1
  = Throw (ErrorInstance "RangeError" (rangeErrorMessage plainMessages))
  /\ ((ErrorInstance "RangeError" (rangeErrorMessage plainMessages)
       = ErrorInstance "RangeError" (rangeErrorMessage plainMessages)
       /\ Z.of_nat (List.length [x01; x02; x03]) mod 2 <> 0)
      \/ (ErrorInstance "RangeError" (rangeErrorMessage plainMessages)
          = ErrorInstance "NotSupportedError" (notSupportedMessage plainMessages)
          /\ Z.of_nat (List.length [x01; x02; x03]) mod 2 = 0)
      \/ (ErrorInstance "RangeError" (rangeErrorMessage plainMessages)
          = ErrorInstance "IndexSizeError" (indexSizeMessage plainMessages)
          /\ 2 ^ 32 <= 1)).
Proof.
  split; [reflexivity |].
  exact (decodePcmData_throws_platform_errors plainMessages [x01; x02; x03]
           leastContext 24000 1 _ eq_refl).
Defined.

Lemma map_seq_elements {A B} (f : option A -> B) (l : list A) :
  List.map (fun i => f (getElement l (Z.of_nat i * 1 + Z.of_nat 0)))
    (seq 0 (List.length l))
  = List.map (fun v => f (Some v)) l.
Proof.
  apply nth_error_ext. intro n.
  rewrite !nth_error_map, nth_error_seq.
  destruct (Nat.ltb_spec n (List.length l)) as [Hin | Hout]; cbn [option_map].
  - replace (Z.of_nat (0 + n) * 1 + Z.of_nat 0) with (Z.of_nat n) by lia.
    rewrite getElement_nat.
    destruct (nth_error l n) eqn:E; [reflexivity |].
    apply nth_error_None in E. lia.
  - assert (E : nth_error l n = None) by (apply nth_error_None; lia).
    now rewrite E.
Qed.

(** X5.  In mono, which is how the handler calls it, [decodePcmData] returns
    the whole stream in order: one channel holding, for every 16-bit integer
    of the payload, that integer divided by 32768.0, at the rate asked for. *)
Theorem mono_buffer_is_the_scaled_stream m data ctx sampleRate buffer :
  Z.of_nat (List.length data) < 2 ^ 33 ->
  decodePcmData m data ctx sampleRate 1 = Ok buffer ->
  buffer
  = {| Web.sampleRate := sampleRate;
       channels :=
         [List.map
            (fun v => Float.toFloat32
                        (Float.div (Float.ofInteger v) (Float.ofInteger 32768)))
            (int16Elements data)] |}.
Proof.
  intros Hlen Hrun.
  rewrite (decodePcmData_closed_form m data ctx sampleRate 1 buffer ltac:(lia) Hrun).
  f_equal. change (Z.to_nat 1) with 1%nat. cbn [seq List.map].
  f_equal. rewrite Z.div_1_r, Z.mod_small, Nat2Z.id.
  - exact (map_seq_elements sampleOf (int16Elements data)).
  - rewrite int16Elements_length. change (2 ^ 33) with (2 * 2 ^ 32) in Hlen.
    split; [apply Z.div_pos; lia | apply Z.div_lt_upper_bound; lia].
Qed.

(** The two extreme samples. *)
Lemma mono_buffer_is_the_scaled_stream_witness :
  let buffer :=
    {| sampleRate := 24000;
       channels := [[S754_finite true 8388608 (-23); S754_finite false 16776704 (-24)]] |} in
  Z.of_nat (List.length [x00; x80; xff; x7f]) < 2 ^ 33
  /\ decodePcmData plainMessages [x00; x80; xff; x7f] leastContext 24000 1 = Ok buffer
  /\ buffer
     = {| Web.sampleRate := 24000;
          channels :=
            [List.map
               (fun v => Float.toFloat32
                           (Float.div (Float.ofInteger v) (Float.ofInteger 32768)))
               (int16Elements [x00; x80; xff; x7f])] |}.
Proof.
  assert (H : Z.of_nat (List.length [x00; x80; xff; x7f]) < 2 ^ 33) by reflexivity.
  split; [exact H |]. split; [reflexivity |].
  exact (mono_buffer_is_the_scaled_stream plainMessages [x00; x80; xff; x7f]
           leastContext 24000 _ H eq_refl).
Defined.

Lemma int16Elements_app data extra :
  Z.of_nat (List.length data) mod 2 = 0 ->
  int16Elements (data ++ extra) = int16Elements data ++ int16Elements extra.
Proof.
  assert (G : forall n data, (List.length data <= n)%nat ->
              Z.of_nat (List.length data) mod 2 = 0 ->
              int16Elements (data ++ extra) = int16Elements data ++ int16Elements extra).
  { induction n as [| n IH]; intros [| lo [| hi rest]] Hl Heven; cbn in Hl;
      try reflexivity; try lia; try discriminate Heven.
    cbn [app int16Elements]. f_equal. apply IH; [lia |].
    cbn [List.length] in Heven. rewrite !Nat2Z.inj_succ in Heven.
    replace (Z.succ (Z.succ (Z.of_nat (List.length rest))))
      with (Z.of_nat (List.length rest) + 1 * 2) in Heven by lia.
    now rewrite Z.mod_add in Heven by lia. }
  apply (G (List.length data)). lia.
Qed.

(** X6.  The bytes after the last whole frame count for nothing: a payload of
    whole frames followed by less than a frame (an even number of bytes)
    decodes to the very buffer the whole frames alone decode to. *)
Theorem trailing_partial_frame_is_ignored m data extra ctx sampleRate numChannels N :
  supports ctx numChannels sampleRate ->
  1 <= N < 2 ^ 32 ->
  Z.of_nat (List.length data) = 2 * numChannels * N ->
  Z.of_nat (List.length extra) mod 2 = 0 ->
  Z.of_nat (List.length extra) < 2 * numChannels ->
  exists buffer,
    decodePcmData m data ctx sampleRate numChannels = Ok buffer
    /\ decodePcmData m (data ++ extra) ctx sampleRate numChannels = Ok buffer.
Proof.
  intros Hsup HN Hlen Heven Hshort.
  assert (Hn : 1 <= numChannels) by (destruct Hsup; lia).
  assert (Hdata_even : Z.of_nat (List.length data) mod 2 = 0).
  { rewrite Hlen, <- Z.mul_assoc, Z.mul_comm. apply Z.mod_mul. lia. }
  assert (Hints : Z.of_nat (List.length (int16Elements data)) = numChannels * N).
  { rewrite int16Elements_length, Hlen, <- Z.mul_assoc, Z.mul_comm.
    apply Z.div_mul. lia. }
  assert (Hextra : 0 <= Z.of_nat (List.length (int16Elements extra)) < numChannels).
  { rewrite int16Elements_length. split; [apply Z.div_pos; lia |].
    apply Z.div_lt_upper_bound; lia. }
  assert (Hall_even : Z.of_nat (List.length (data ++ extra)) mod 2 = 0).
  { rewrite length_app, Nat2Z.inj_add, Z.add_mod, Hdata_even, Heven by lia.
    reflexivity. }
  assert (Hq1 : Z.of_nat (List.length (int16Elements data)) / numChannels = N).
  { rewrite Hints, Z.mul_comm. apply Z.div_mul. lia. }
  assert (Hq2 : Z.of_nat (List.length (int16Elements (data ++ extra))) / numChannels = N).
  { rewrite (int16Elements_app data extra Hdata_even), length_app, Nat2Z.inj_add, Hints.
    rewrite Z.mul_comm, Z.div_add_l, Z.div_small by lia. lia. }
  destruct (decodePcmData_ok m data ctx sampleRate numChannels Hdata_even Hsup)
    as (b1 & Hrun1 & _); [rewrite Hq1, Z.mod_small; lia |].
  destruct (decodePcmData_ok m (data ++ extra) ctx sampleRate numChannels Hall_even Hsup)
    as (b2 & Hrun2 & _); [rewrite Hq2, Z.mod_small; lia |].
  exists b1. split; [exact Hrun1 |]. rewrite Hrun2. f_equal.
  rewrite (decodePcmData_closed_form m _ ctx sampleRate numChannels b2 Hn Hrun2).
  rewrite (decodePcmData_closed_form m _ ctx sampleRate numChannels b1 Hn Hrun1).
  rewrite Hq1, Hq2. f_equal.
  apply map_ext_in. intros c Hc. apply in_seq in Hc.
  apply map_ext_in. intros i Hi. apply in_seq in Hi.
  rewrite Z.mod_small in Hi by lia.
  f_equal. rewrite (int16Elements_app data extra Hdata_even).
  assert (Hidx : 0 <= Z.of_nat i * numChannels + Z.of_nat c < numChannels * N) by nia.
  unfold getElement.
  destruct (Z.ltb_spec (Z.of_nat i * numChannels + Z.of_nat c) 0); [reflexivity |].
  apply nth_error_app1. lia.
Qed.

(** Two stereo frames followed by one more sample. *)
Lemma trailing_partial_frame_is_ignored_witness :
  let data := [x01; x00; x02; x00; x03; x00; x04; x00] in
  let extra := [x05; x00] in
  supports leastContext 2 24000
  /\ 1 <= 2 < 2 ^ 32
  /\ Z.of_nat (List.length data) = 2 * 2 * 2
  /\ Z.of_nat (List.length extra) mod 2 = 0
  /\ Z.of_nat (List.length extra) < 2 * 2
  /\ exists buffer,
       decodePcmData plainMessages data leastContext 24000 2 = Ok buffer
       /\ decodePcmData plainMessages (data ++ extra) leastContext 24000 2 = Ok buffer.
Proof.
  assert (Hsup : supports leastContext 2 24000) by (unfold supports; cbn; lia).
  assert (HN : 1 <= 2 < 2 ^ 32) by (split; [lia | reflexivity]).
  assert (Hshort : Z.of_nat (List.length [x05; x00]) < 2 * 2) by reflexivity.
  split; [exact Hsup |]. split; [exact HN |]. split; [reflexivity |].
  split; [reflexivity |]. split; [exact Hshort |].
  exact (trailing_partial_frame_is_ignored plainMessages
           [x01; x00; x02; x00; x03; x00; x04; x00] [x05; x00] leastContext 24000 2 2
           Hsup HN eq_refl eq_refl Hshort).
Defined.

(** X7.  The scaling keeps the order of the integers, strictly: a larger
    16-bit integer gives a larger sample, so that two different integers never
    give the same sample. *)
Theorem scaling_is_strictly_increasing v1 v2 :
  -32768 <= v1 -> v1 < v2 -> v2 <= 32767 ->
  sampleOf (Some v1) <> sampleOf (Some v2)
  /\ exists q1 q2,
       Float.toQ (sampleOf (Some v1)) = Some q1
       /\ Float.toQ (sampleOf (Some v2)) = Some q2
       /\ (q1 < q2)%Q.
Proof.
  intros H1 Hlt H2.
  destruct (sampleOf_exact v1 ltac:(lia)) as (q1 & Hq1 & Hval1).
  destruct (sampleOf_exact v2 ltac:(lia)) as (q2 & Hq2 & Hval2).
  assert (Hless : (q1 < q2)%Q).
  { rewrite Hval1, Hval2. unfold Qlt; cbn [Qnum Qden]. lia. }
  split; [| exists q1, q2; repeat split; assumption].
  intro Heq. rewrite Heq, Hq2 in Hq1. injection Hq1 as ->.
  exact (Qlt_irrefl _ Hless).
Qed.

(** Two neighbours. *)
Lemma scaling_is_strictly_increasing_witness :
  -32768 <= -1 /\ -1 < 0 /\ 0 <= 32767
  /\ sampleOf (Some (-1)) <> sampleOf (Some 0)
  /\ exists q1 q2,
       Float.toQ (sampleOf (Some (-1))) = Some q1
       /\ Float.toQ (sampleOf (Some 0)) = Some q2
       /\ (q1 < q2)%Q.
Proof.
  assert (H1 : -32768 <= -1) by lia.
  assert (H2 : -1 < 0) by lia.
  assert (H3 : 0 <= 32767) by lia.
  split; [exact H1 |]. split; [exact H2 |]. split; [exact H3 |].
  exact (scaling_is_strictly_increasing (-1) 0 H1 H2 H3).
Defined.

(** ** [handleGenerateSpeech]: what a run does and does not touch *)

(** The world in which the second half of a run ends its [try] block: the
    world it started in, or that world with the decoding announced, an audio
    context having been created first when there was none. *)
Lemma settle_stages env outcome w :
  exists w2,
    (w2 = w
     \/ (exists payload ctx,
           audioContextRef (state w) = Some ctx
           /\ w2 = emit (DecodingStarted payload) w)
     \/ (exists payload ctx,
           audioContextRef (state w) = None
           /\ newAudioContext env 24000 = Ok ctx
           /\ w2 = emit (DecodingStarted payload)
                     (emit AudioContextCreated (setAudioContextRef (Some ctx) w))))
    /\ ((exists e, settle env outcome w = catchFinally (Throw e, w2))
        \/ (exists buffer ctx,
              audioContextRef (state w2) = Some ctx
              /\ settle env outcome w
                 = setIsLoading false (setAudioBuffer (Some buffer) w2))).
Proof.
  unfold settle.
  destruct outcome as [response | e];
    [| exists w; split; [left; reflexivity | left; exists e; reflexivity]].
  change (andThen (lift (Ok response)) (receiveResponse env) w)
    with (receiveResponse env response w).
  destruct (truthyOpt (base64AudioOf response)) eqn:Htruthy.
  - destruct (base64AudioOf response) as [payload |] eqn:Hpayload; [| discriminate].
    cbn [truthyOpt] in Htruthy.
    rewrite (receiveResponse_payload env response payload w Hpayload Htruthy).
    cbv zeta.
    destruct (audioContextRef (state w)) as [ctx |] eqn:Href.
    + exists (emit (DecodingStarted payload) w).
      split; [right; left; exists payload, ctx; split; reflexivity |].
      destruct (bind _ _) as [buffer | e].
      * right. exists buffer, ctx. split; [exact Href | reflexivity].
      * left. exists e. reflexivity.
    + destruct (newAudioContext env 24000) as [ctx | e] eqn:Hctx.
      * eexists. split; [right; right; exists payload, ctx; repeat split |].
        destruct (bind _ _) as [buffer | e].
        -- right. exists buffer, ctx. split; reflexivity.
        -- left. exists e. reflexivity.
      * exists w. split; [left; reflexivity | left; exists e; reflexivity].
  - rewrite receiveResponse_no_payload by exact Htruthy.
    exists w. split; [left; reflexivity | left; eexists; reflexivity].
Qed.

(** X8.  A request is only issued for text that is not blank and with a key
    configured; it carries that key, the fixed model, the audio modality and
    the voice and the speaking rate selected, and at that point the component
    is loading with its error and its buffer cleared. *)
Theorem issued_request_is_well_formed env w w1 request :
  submit env w = Awaiting w1 request ->
  truthy (trim (text (state w))) = true
  /\ truthyOpt (API_KEY env) = true
  /\ apiKey request = API_KEY env
  /\ model request = "gemini-2.5-flash-preview-tts"%string
  /\ responseModalities request = ["AUDIO"%string]
  /\ requestVoiceName request = selectedVoice (state w)
  /\ requestSpeakingRate request = speakingRate (state w)
  /\ isLoading (state w1) = true
  /\ error (state w1) = None
  /\ audioBuffer (state w1) = None.
Proof.
  intro Hsubmit.
  destruct (preconditionFails env (state w)) eqn:Hpre.
  - rewrite (submit_rejected env w Hpre) in Hsubmit. discriminate.
  - destruct (submit_accepted env w Hpre) as (o & _ & _ & Hrun).
    rewrite Hrun in Hsubmit. cbv zeta in Hsubmit. injection Hsubmit as <- <-.
    unfold preconditionFails in Hpre. apply orb_false_iff in Hpre.
    destruct Hpre as [Htext Hkey]. apply negb_false_iff in Htext, Hkey.
    repeat split; assumption.
Qed.

(** [Hi] with a key. *)
Lemma issued_request_is_well_formed_witness :
  let env := collaborators (Some (code_units "key")) (answering None) in
  let w := typed "Hi" in
  exists w1 request,
    submit env w = Awaiting w1 request
    /\ truthy (trim (text (state w))) = true
    /\ truthyOpt (API_KEY env) = true
    /\ apiKey request = API_KEY env
    /\ model request = "gemini-2.5-flash-preview-tts"%string
    /\ responseModalities request = ["AUDIO"%string]
    /\ requestVoiceName request = selectedVoice (state w)
    /\ requestSpeakingRate request = speakingRate (state w)
    /\ isLoading (state w1) = true
    /\ error (state w1) = None
    /\ audioBuffer (state w1) = None.
Proof.
  do 2 eexists. split; [reflexivity |].
  exact (issued_request_is_well_formed
           (collaborators (Some (code_units "key")) (answering None))
           (typed "Hi") _ _ eq_refl).
Defined.

Lemma serviceCalls_app t t' : serviceCalls (t ++ t') = (serviceCalls t + serviceCalls t')%nat.
Proof. unfold serviceCalls. now rewrite filter_app, length_app. Qed.

Lemma contextCreations_app t t' :
  contextCreations (t ++ t') = (contextCreations t + contextCreations t')%nat.
Proof. unfold contextCreations. now rewrite filter_app, length_app. Qed.

(** What the second half of a run adds to the trace. *)
Lemma settle_trace env outcome w :
  exists rest,
    trace (settle env outcome w) = trace w ++ rest
    /\ serviceCalls rest = 0%nat
    /\ contextCreations rest
       = match audioContextRef (state w), audioContextRef (state (settle env outcome w)) with
         | None, Some _ => 1%nat
         | _, _ => 0%nat
         end.
Proof.
  destruct (settle_stages env outcome w)
    as (w2 & [-> | [(p & ctx & Href & ->) | (p & ctx & Href & Hctx & ->)]]
           & [[e Hs] | (buffer & ctx' & Href' & Hs)]);
    rewrite Hs; cbn; rewrite ?Href; cbn.
  - exists [ConsoleError e]. repeat split. now destruct (audioContextRef (state w)).
  - exists []. rewrite app_nil_r. repeat split. now destruct (audioContextRef (state w)).
  - exists [DecodingStarted p; ConsoleError e]. rewrite <- app_assoc. repeat split.
  - exists [DecodingStarted p]. repeat split.
  - exists [AudioContextCreated; DecodingStarted p; ConsoleError e].
    rewrite <- !app_assoc. repeat split.
  - exists [AudioContextCreated; DecodingStarted p].
    rewrite <- !app_assoc. repeat split.
Qed.

(** X9.  A run calls the service once when the test of line 56 passes and
    not at all when it fails; the call is the first thing the run does to the
    outside, and what was in the trace before stays. *)
Theorem one_service_call_per_run env w :
  exists new,
    trace (handleGenerateSpeech env w) = trace w ++ new
    /\ serviceCalls new = (if preconditionFails env (state w) then 0 else 1)%nat
    /\ ((preconditionFails env (state w) = true /\ new = [])
        \/ (preconditionFails env (state w) = false
            /\ exists request rest, new = ServiceCall request :: rest)).
Proof.
  unfold handleGenerateSpeech.
  destruct (preconditionFails env (state w)) eqn:Hpre.
  - rewrite (submit_rejected env w Hpre). exists []. cbn. rewrite app_nil_r.
    split; [reflexivity |]. split; [reflexivity |]. left. split; reflexivity.
  - destruct (submit_accepted env w Hpre) as (o & _ & _ & Hrun).
    rewrite Hrun. cbv beta iota zeta.
    match goal with
    | |- context [settle env ?out ?v] =>
        destruct (settle_trace env out v) as (rest & Htrace & Hcalls & _)
    end.
    rewrite Htrace. cbn [trace emit].
    eexists (ServiceCall _ :: rest). rewrite <- app_assoc. cbn [app].
    split; [reflexivity |].
    split; [change (serviceCalls (ServiceCall ?r :: rest)) with (S (serviceCalls rest));
            now rewrite Hcalls |].
    right. split; [reflexivity |]. eauto.
Qed.

Lemma settle_inputs env outcome w :
  text (state (settle env outcome w)) = text (state w)
  /\ selectedEmotion (state (settle env outcome w)) = selectedEmotion (state w)
  /\ selectedVoice (state (settle env outcome w)) = selectedVoice (state w)
  /\ speakingRate (state (settle env outcome w)) = speakingRate (state w).
Proof.
  destruct (settle_stages env outcome w)
    as (w2 & [-> | [(p & ctx & Href & ->) | (p & ctx & Href & Hctx & ->)]]
           & [[e Hs] | (buffer & ctx' & Href' & Hs)]);
    rewrite Hs; repeat split.
Qed.

(** X10.  A run never alters what the user entered: the text, the emotion,
    the voice and the speaking rate are after the run what they were before,
    however the run ends. *)
Theorem run_keeps_the_inputs env w :
  text (state (handleGenerateSpeech env w)) = text (state w)
  /\ selectedEmotion (state (handleGenerateSpeech env w)) = selectedEmotion (state w)
  /\ selectedVoice (state (handleGenerateSpeech env w)) = selectedVoice (state w)
  /\ speakingRate (state (handleGenerateSpeech env w)) = speakingRate (state w).
Proof.
  unfold handleGenerateSpeech.
  destruct (preconditionFails env (state w)) eqn:Hpre.
  - rewrite (submit_rejected env w Hpre). repeat split.
  - destruct (submit_accepted env w Hpre) as (o & _ & _ & Hrun).
    rewrite Hrun. cbv beta iota zeta.
    match goal with
    | |- context [settle env ?out ?v] =>
        destruct (settle_inputs env out v) as (H1 & H2 & H3 & H4)
    end.
    rewrite H1, H2, H3, H4. repeat split.
Qed.

Lemma settle_ref env outcome w ctx :
  audioContextRef (state w) = Some ctx ->
  audioContextRef (state (settle env outcome w)) = Some ctx.
Proof.
  intro Href.
  destruct (settle_stages env outcome w)
    as (w2 & [-> | [(p & c & _ & ->) | (p & c & Hnone & _)]]
           & [[e Hs] | (buffer & ctx' & _ & Hs)]);
    try congruence; rewrite Hs; exact Href.
Qed.

(** X11.  The audio context is created once and reused: a run that finds a
    context in [audioContextRef] leaves it there and creates no other. *)
Theorem audio_context_is_reused env w ctx :
  audioContextRef (state w) = Some ctx ->
  audioContextRef (state (handleGenerateSpeech env w)) = Some ctx
  /\ contextCreations (trace (handleGenerateSpeech env w)) = contextCreations (trace w).
Proof.
  intro Href. unfold handleGenerateSpeech.
  destruct (preconditionFails env (state w)) eqn:Hpre.
  - rewrite (submit_rejected env w Hpre). split; [exact Href | reflexivity].
  - destruct (submit_accepted env w Hpre) as (o & _ & _ & Hrun).
    rewrite Hrun. cbv beta iota zeta.
    match goal with
    | |- context [settle env ?out ?v] =>
        pose proof (settle_ref env out v ctx Href) as Hkept;
        destruct (settle_trace env out v) as (rest & Htrace & _ & Hcount)
    end.
    split; [exact Hkept |].
    rewrite Htrace, Hkept in *. cbn [trace emit state setAudioBuffer setError
      setIsLoading onState audioContextRef] in Hcount |- *.
    rewrite Href in Hcount.
    rewrite !contextCreations_app, Hcount. cbn. lia.
Qed.

(** A second run after a first one that decoded a payload. *)
Lemma audio_context_is_reused_witness :
  let env := collaborators (Some (code_units "key"))
               (answering (Some (code_units "AID/fw=="))) in
  let w := handleGenerateSpeech env (typed "Hi") in
  audioContextRef (state w) = Some leastContext
  /\ audioContextRef (state (handleGenerateSpeech env w)) = Some leastContext
  /\ contextCreations (trace (handleGenerateSpeech env w)) = contextCreations (trace w).
Proof.
  split; [reflexivity |].
  exact (audio_context_is_reused
           (collaborators (Some (code_units "key"))
              (answering (Some (code_units "AID/fw=="))))
           (handleGenerateSpeech
              (collaborators (Some (code_units "key"))
                 (answering (Some (code_units "AID/fw=="))))
              (typed "Hi"))
           leastContext eq_refl).
Defined.

(** X12.  A run that passes the test of line 56 does not depend on what the
    run before it left behind: the loading flag, the error message and the
    buffer it starts from make no difference to the world it ends in. *)
Theorem run_forgets_the_previous_outcome env w loading message buffer :
  preconditionFails env (state w) = false ->
  handleGenerateSpeech env (setIsLoading loading (setError message (setAudioBuffer buffer w)))
  = handleGenerateSpeech env w.
Proof.
  intro Hpre. unfold handleGenerateSpeech, submit.
  assert (Hsame : preconditionFails env
            (state (setIsLoading loading (setError message (setAudioBuffer buffer w))))
          = preconditionFails env (state w)) by reflexivity.
  rewrite Hsame, Hpre. reflexivity.
Qed.

(** A run from a world in which an error and a buffer are both set. *)
Lemma run_forgets_the_previous_outcome_witness :
  let env := collaborators (Some (code_units "key"))
               (answering (Some (code_units "AID/fw=="))) in
  let w := typed "Hi" in
  let stale := {| sampleRate := 8000; channels := [[S754_zero false]] |} in
  preconditionFails env (state w) = false
  /\ handleGenerateSpeech env
       (setIsLoading true (setError (Some (code_units "old")) (setAudioBuffer (Some stale) w)))
     = handleGenerateSpeech env w.
Proof.
  split; [reflexivity |].
  exact (run_forgets_the_previous_outcome
           (collaborators (Some (code_units "key"))
              (answering (Some (code_units "AID/fw=="))))
           (typed "Hi") true (Some (code_units "old"))
           (Some {| sampleRate := 8000; channels := [[S754_zero false]] |}) eq_refl).
Defined.

(** ** The payload and the outcome of the run *)

Section LengthFacts.

Lemma octets_length vs : (4 * List.length (octets vs) <= 3 * List.length vs)%nat.
Proof.
  assert (G : forall n vs, (List.length vs <= n)%nat ->
              (4 * List.length (octets vs) <= 3 * List.length vs)%nat).
  { induction n as [| n IH]; intros [| a [| b [| c [| d rest]]]] Hl;
      cbn in Hl; try lia; cbn [octets List.length]; try lia.
    specialize (IH rest ltac:(lia)). lia. }
  apply (G (List.length vs)). lia.
Qed.

Lemma sextets_length s vs : sextets s = Some vs -> List.length vs = List.length s.
Proof.
  revert vs. induction s as [| c s IH]; intros vs H; cbn [sextets] in H.
  - now injection H as <-.
  - destruct (base64Value c); [| discriminate].
    destruct (sextets s) as [vs' |]; [| discriminate].
    injection H as <-. cbn. now rewrite (IH vs' eq_refl).
Qed.

Lemma stripPadding_length s : (List.length (stripPadding s) <= List.length s)%nat.
Proof.
  unfold stripPadding. destruct (_ =? 0)%N; [| lia].
  assert (Hl : List.length s = List.length (rev s)) by (symmetry; apply length_rev).
  destruct (rev s) as [| c l]; [lia |].
  destruct (N.eq_dec c 61) as [-> | Hc].
  - destruct l as [| c' l']; [cbn; lia |].
    destruct (N.eq_dec c' 61) as [-> | Hc'].
    + rewrite length_rev. cbn [List.length] in Hl. lia.
    + rewrite (strip_one c' l' s Hc'), length_rev. cbn [List.length] in Hl |- *. lia.
  - rewrite (strip_other c l s Hc). lia.
Qed.

End LengthFacts.

(** X13.  [decodeBase64] returns at most three bytes for every four
    characters of its argument. *)
Theorem decodeBase64_length_bound m base64 bytes :
  decodeBase64 m base64 = Ok bytes ->
  (4 * List.length bytes <= 3 * List.length base64)%nat.
Proof.
  unfold decodeBase64, atob. intro H.
  destruct (_ =? 1)%N; [discriminate |].
  destruct (sextets _) as [vs |] eqn:Hvs; [| discriminate].
  cbn [bind] in H. injection H as <-. rewrite length_map.
  pose proof (octets_length vs) as Ho.
  apply sextets_length in Hvs. rewrite Hvs in Ho.
  pose proof (stripPadding_length
                (filter (fun c => negb (isAsciiWhitespace c)) base64)) as Hs.
  pose proof (filter_length_le (fun c => negb (isAsciiWhitespace c)) base64) as Hf.
  lia.
Qed.

(** Eight characters, two of them padding, for four bytes. *)
Lemma decodeBase64_length_bound_witness :
  decodeBase64 plainMessages (code_units "AID/fw==") = Ok [x00; x80; xff; x7f]
  /\ (4 * List.length [x00; x80; xff; x7f]
      <= 3 * List.length (code_units "AID/fw=="))%nat.
Proof.
  split; [reflexivity |].
  exact (decodeBase64_length_bound plainMessages (code_units "AID/fw==")
           [x00; x80; xff; x7f] eq_refl).
Defined.

Lemma decodeBase64_keeps_length_below env payload audioBytes :
  decodeBase64 (messages env) payload = Ok audioBytes ->
  Z.of_nat (List.length payload) < 2 ^ 33 ->
  Z.of_nat (List.length audioBytes) < 2 ^ 33.
Proof.
  unfold decodeBase64, atob. intros H Hlen.
  destruct (_ =? 1)%N; [discriminate |].
  destruct (sextets _) as [vs |] eqn:Hvs; [| discriminate].
  cbn [bind] in H. injection H as <-. rewrite length_map.
  pose proof (octets_length vs) as Ho.
  apply sextets_length in Hvs. rewrite Hvs in Ho.
  pose proof (stripPadding_length
                (filter (fun c => negb (isAsciiWhitespace c)) payload)) as Hs.
  pose proof (filter_length_le (fun c => negb (isAsciiWhitespace c)) payload) as Hf.
  lia.
Qed.

(** A run whose response carries a payload ends as the decoding of the
    payload ends. *)
Lemma run_with_payload env w w1 request response payload ctx :
  submit env w = Awaiting w1 request ->
  generateContent env request = Ok response ->
  base64AudioOf response = Some payload ->
  truthy payload = true ->
  match audioContextRef (state w) with
  | Some c => c = ctx
  | None => newAudioContext env 24000 = Ok ctx
  end ->
  let w' := handleGenerateSpeech env w in
  isLoading (state w') = false
  /\ match bind (decodeBase64 (messages env) payload)
             (fun audioBytes => decodePcmData (messages env) audioBytes ctx 24000 1) with
     | Ok buffer => error (state w') = None /\ audioBuffer (state w') = Some buffer
     | Throw e => error (state w') = Some (surfaced e) /\ audioBuffer (state w') = None
     end.
Proof.
  intros Hsubmit Hresponse Hpayload Htruthy Hctx w'. subst w'.
  unfold handleGenerateSpeech. rewrite Hsubmit.
  unfold submit in Hsubmit.
  destruct (preconditionFails env (state w)); [discriminate |].
  destruct (issueRequest_issues env
              (setAudioBuffer None (setError None (setIsLoading true w))))
    as (o & _ & _ & Hrun).
  rewrite Hrun in Hsubmit. cbv zeta in Hsubmit. injection Hsubmit as <- <-.
  unfold settle. rewrite Hresponse.
  match goal with
  | |- context [andThen (lift (Ok response)) (receiveResponse env) ?v] =>
      change (andThen (lift (Ok response)) (receiveResponse env) v)
        with (receiveResponse env response v);
      rewrite (receiveResponse_payload env response payload v Hpayload Htruthy)
  end.
  cbv zeta. cbn [emit state setAudioBuffer setError setIsLoading onState audioContextRef].
  destruct (audioContextRef (state w)) as [c |].
  - subst c. destruct (bind _ _); split; try split; reflexivity.
  - rewrite Hctx. destruct (bind _ _); split; try split; reflexivity.
Qed.

(** X14.  On a conforming platform the payload decides how the run ends: the
    message of [atob] for a payload that is not base64, the RangeError message
    for an odd number of bytes, the NotSupportedError message for no byte at
    all, and otherwise no message and a buffer. *)
Theorem payload_decides_the_outcome env w w1 request response payload ctx :
  submit env w = Awaiting w1 request ->
  generateContent env request = Ok response ->
  base64AudioOf response = Some payload ->
  truthy payload = true ->
  match audioContextRef (state w) with
  | Some c => c = ctx
  | None => newAudioContext env 24000 = Ok ctx
  end ->
  conforming ctx ->
  Z.of_nat (List.length payload) < 2 ^ 33 ->
  let w' := handleGenerateSpeech env w in
  error (state w') = payloadVerdict (messages env) payload
  /\ match payloadVerdict (messages env) payload with
     | Some _ => audioBuffer (state w') = None
     | None => exists buffer, audioBuffer (state w') = Some buffer
     end.
Proof.
  intros Hsubmit Hresponse Hpayload Htruthy Hctx Hconf Hlen w'.
  destruct (run_with_payload env w w1 request response payload ctx
              Hsubmit Hresponse Hpayload Htruthy Hctx) as [_ Hend].
  fold w' in Hend. unfold payloadVerdict.
  destruct (decodeBase64 (messages env) payload) as [audioBytes | e] eqn:Hbytes;
    cbn [bind] in Hend; [| exact Hend].
  destruct (Z.eqb_spec (Z.of_nat (List.length audioBytes) mod 2) 0) as [Heven | Hodd];
    cbn [negb].
  - destruct (Z.eqb_spec (Z.of_nat (List.length audioBytes)) 0) as [Hzero | Hsome].
    + rewrite (short_payload_raises (messages env) audioBytes ctx 24000 1) in Hend;
        [exact Hend | lia | exact Heven |].
      unfold wholeFrames. now rewrite Hzero.
    + pose proof (decodeBase64_keeps_length_below env payload audioBytes Hbytes Hlen)
        as Hbound.
      assert (Hrange : 1 <= Z.of_nat (List.length audioBytes) / 2 < 2 ^ 32).
      { change (2 ^ 33) with (2 * 2 ^ 32) in Hbound.
        assert (2 <= Z.of_nat (List.length audioBytes)).
        { destruct (Z.eq_dec (Z.of_nat (List.length audioBytes)) 1) as [E | E];
            [rewrite E in Heven; discriminate | lia]. }
        split; [apply Z.div_le_lower_bound; lia | apply Z.div_lt_upper_bound; lia]. }
      destruct (decoded_shape (messages env) audioBytes ctx 24000 1
                  (Z.of_nat (List.length audioBytes) / 2) Heven
                  (conforming_supports ctx Hconf) Hrange eq_refl)
        as (buffer & Hdecode & _).
      rewrite Hdecode in Hend. destruct Hend as [Herr Hbuf].
      split; [exact Herr | exists buffer; exact Hbuf].
  - rewrite (odd_length_raises (messages env) audioBytes ctx 24000 1 Hodd) in Hend.
    exact Hend.
Qed.

(** A payload of two samples on the least platform. *)
Lemma payload_decides_the_outcome_witness :
  let env := collaborators (Some (code_units "key"))
               (answering (Some (code_units "AID/fw=="))) in
  let w := typed "Hi" in
  let payload := code_units "AID/fw==" in
  exists w1 request response,
    submit env w = Awaiting w1 request
    /\ generateContent env request = Ok response
    /\ base64AudioOf response = Some payload
    /\ truthy payload = true
    /\ newAudioContext env 24000 = Ok leastContext
    /\ conforming leastContext
    /\ Z.of_nat (List.length payload) < 2 ^ 33
    /\ error (state (handleGenerateSpeech env w)) = payloadVerdict (messages env) payload
    /\ match payloadVerdict (messages env) payload with
       | Some _ => audioBuffer (state (handleGenerateSpeech env w)) = None
       | None => exists buffer, audioBuffer (state (handleGenerateSpeech env w)) = Some buffer
       end.
Proof.
  assert (Hconf : conforming leastContext) by (unfold conforming; cbn; lia).
  assert (Hlen : Z.of_nat (List.length (code_units "AID/fw==")) < 2 ^ 33) by reflexivity.
  do 3 eexists.
  split; [reflexivity |]. split; [reflexivity |]. split; [reflexivity |].
  split; [reflexivity |]. split; [reflexivity |]. split; [exact Hconf |].
  split; [exact Hlen |].
  exact (payload_decides_the_outcome
           (collaborators (Some (code_units "key"))
              (answering (Some (code_units "AID/fw=="))))
           (typed "Hi") _ _ _ (code_units "AID/fw==") leastContext
           eq_refl eq_refl eq_refl eq_refl eq_refl Hconf Hlen).
Defined.

Lemma decodeBase64_blank m payload :
  Forall (fun c => isAsciiWhitespace c = true) payload ->
  decodeBase64 m payload = Ok [].
Proof.
  intro H. unfold decodeBase64, atob.
  assert (Hfilter : filter (fun c => negb (isAsciiWhitespace c)) payload = []).
  { induction H as [| c l Hc _ IH]; [reflexivity |].
    cbn [filter]. now rewrite Hc. }
  rewrite Hfilter. reflexivity.
Qed.

(** X15.  A payload made of white space only is not stopped by the test of
    line 90, which stops the empty string: it decodes to no byte, and the run
    ends with the NotSupportedError message of [createBuffer] and no buffer. *)
Theorem blank_payload_passes_the_guard env w w1 request response payload ctx :
  submit env w = Awaiting w1 request ->
  generateContent env request = Ok response ->
  base64AudioOf response = Some payload ->
  payload <> [] ->
  Forall (fun c => isAsciiWhitespace c = true) payload ->
  match audioContextRef (state w) with
  | Some c => c = ctx
  | None => newAudioContext env 24000 = Ok ctx
  end ->
  let w' := handleGenerateSpeech env w in
  decodeBase64 (messages env) payload = Ok []
  /\ error (state w') = Some (notSupportedMessage (messages env))
  /\ audioBuffer (state w') = None
  /\ isLoading (state w') = false.
Proof.
  intros Hsubmit Hresponse Hpayload Hsome Hblank Hctx w'.
  assert (Htruthy : truthy payload = true) by (destruct payload; [contradiction | reflexivity]).
  destruct (run_with_payload env w w1 request response payload ctx
              Hsubmit Hresponse Hpayload Htruthy Hctx) as [Hloading Hend].
  fold w' in Hend, Hloading.
  rewrite (decodeBase64_blank (messages env) payload Hblank) in Hend. cbn [bind] in Hend.
  rewrite (short_payload_raises (messages env) [] ctx 24000 1) in Hend
    by (try reflexivity; lia).
  destruct Hend as [Herr Hbuf].
  split; [apply decodeBase64_blank, Hblank |]. repeat split; assumption.
Qed.

(** A payload of one space and one line feed. *)
Lemma blank_payload_passes_the_guard_witness :
  let payload := [32%N; 10%N] in
  let env := collaborators (Some (code_units "key")) (answering (Some payload)) in
  let w := typed "Hi" in
  exists w1 request response,
    submit env w = Awaiting w1 request
    /\ generateContent env request = Ok response
    /\ base64AudioOf response = Some payload
    /\ payload <> []
    /\ Forall (fun c => isAsciiWhitespace c = true) payload
    /\ newAudioContext env 24000 = Ok leastContext
    /\ decodeBase64 (messages env) payload = Ok []
    /\ error (state (handleGenerateSpeech env w)) = Some (notSupportedMessage (messages env))
    /\ audioBuffer (state (handleGenerateSpeech env w)) = None
    /\ isLoading (state (handleGenerateSpeech env w)) = false.
Proof.
  assert (Hsome : [32%N; 10%N] <> []) by discriminate.
  assert (Hblank : Forall (fun c => isAsciiWhitespace c = true) [32%N; 10%N])
    by (repeat constructor).
  do 3 eexists.
  split; [reflexivity |]. split; [reflexivity |]. split; [reflexivity |].
  split; [exact Hsome |]. split; [exact Hblank |]. split; [reflexivity |].
  exact (blank_payload_passes_the_guard
           (collaborators (Some (code_units "key")) (answering (Some [32%N; 10%N])))
           (typed "Hi") _ _ _ [32%N; 10%N] leastContext
           eq_refl eq_refl eq_refl Hsome Hblank eq_refl).
Defined.

(** ** The mounted component over its life *)

Lemma no_service_call t r : serviceCalls t = 0%nat -> ~ In (ServiceCall r) t.
Proof.
  unfold serviceCalls. intros H Hin.
  assert (Hf : In (ServiceCall r) (filter isServiceCall t))
    by (apply filter_In; split; [exact Hin | reflexivity]).
  destruct (filter isServiceCall t); [contradiction | discriminate].
Qed.

Lemma settle_buffer_has_context env outcome w :
  (forall b, audioBuffer (state w) = Some b ->
             exists ctx, audioContextRef (state w) = Some ctx) ->
  forall b, audioBuffer (state (settle env outcome w)) = Some b ->
            exists ctx, audioContextRef (state (settle env outcome w)) = Some ctx.
Proof.
  intros Hinv b.
  destruct (settle_stages env outcome w)
    as (w2 & [-> | [(p & ctx & Href & ->) | (p & ctx & Href & Hctx & ->)]]
           & [[e Hs] | (buffer & ctx' & Href' & Hs)]);
    rewrite Hs; cbn; intro Hb; eauto.
Qed.

Lemma afterClick_reachable env : reachable (API_KEY env) (afterClick env).
Proof.
  apply (reachable_step _ initialApp); [apply reachable_initial |].
  apply step_generate; reflexivity.
Qed.

(** What every state the component can reach keeps: the calls in its trace
    were made with the key, a context was created if and only if the ref holds
    one, and a stored buffer comes with a context. *)
Lemma reachable_resources key a :
  reachable key a ->
  (forall r, In (ServiceCall r) (trace (world a)) ->
             apiKey r = key /\ truthyOpt key = true)
  /\ contextCreations (trace (world a))
     = match audioContextRef (state (world a)) with Some _ => 1%nat | None => 0%nat end
  /\ (forall b, audioBuffer (state (world a)) = Some b ->
                exists ctx, audioContextRef (state (world a)) = Some ctx).
Proof.
  induction 1 as [| a a' _ (Hcalls & Hcount & Hbuf) Hstep].
  - split; [intros r [] |]. split; [reflexivity | discriminate].
  - destruct Hstep as [a v Hl | a v Hl | a v Hl | a v Hl
                      | a env Hkey Hguard
                      | a env before request after outcome Hkey Hin
                      | a buffer Hshown Hl].
    1-4: split; [exact Hcalls | split; [exact Hcount | exact Hbuf]].
    + (* the Generate button *)
      destruct (preconditionFails env (state (world a))) eqn:Hpre.
      * rewrite (submit_rejected env (world a) Hpre).
        split; [exact Hcalls | split; [exact Hcount | exact Hbuf]].
      * destruct (submit_accepted env (world a) Hpre) as (o & _ & _ & Hsubmit).
        rewrite Hsubmit. cbv beta iota zeta. cbn [world trace emit state
          setAudioBuffer setError setIsLoading onState audioContextRef audioBuffer].
        split; [| split].
        -- intros r Hr. apply in_app_or in Hr. destruct Hr as [Hr | [Hr | []]].
           ++ exact (Hcalls r Hr).
           ++ injection Hr as <-. cbn [apiKey]. split; [exact Hkey |].
              unfold preconditionFails in Hpre. apply orb_false_iff in Hpre.
              destruct Hpre as [_ Hk]. apply negb_false_iff in Hk. now rewrite <- Hkey.
        -- rewrite contextCreations_app, Hcount. cbn. lia.
        -- discriminate.
    + (* the promise settles *)
      cbn [world].
      destruct (settle_trace env outcome (world a)) as (rest & Htrace & Hnone & Hnew).
      split; [| split].
      * intros r Hr. rewrite Htrace in Hr. apply in_app_or in Hr.
        destruct Hr as [Hr | Hr]; [exact (Hcalls r Hr) |].
        exfalso. exact (no_service_call rest r Hnone Hr).
      * rewrite Htrace, contextCreations_app, Hcount, Hnew.
        destruct (audioContextRef (state (world a))) as [ctx |] eqn:Href.
        -- rewrite (settle_ref env outcome (world a) ctx Href). reflexivity.
        -- destruct (audioContextRef (state (settle env outcome (world a))));
             reflexivity.
      * exact (settle_buffer_has_context env outcome (world a) Hbuf).
    + (* the Play button *)
      cbn [world]. unfold playAudio. rewrite Hshown.
      destruct (Hbuf buffer Hshown) as [ctx Hctx]. rewrite Hctx.
      cbn [trace emit state].
      split; [| split].
      * intros r Hr. apply in_app_or in Hr. destruct Hr as [Hr | [Hr | []]];
          [exact (Hcalls r Hr) | discriminate Hr].
      * rewrite contextCreations_app, Hcount, Hctx. cbn. lia.
      * exact Hbuf.
Qed.

(** X16.  However the component is used, every call to the service was made
    with the configured key, and that key is not empty: with no key
    configured the service is never called. *)
Theorem service_is_never_called_without_the_key key a r :
  reachable key a ->
  In (ServiceCall r) (trace (world a)) ->
  apiKey r = key /\ truthyOpt key = true.
Proof.
  intros Hreach Hin.
  exact (proj1 (reachable_resources key a Hreach) r Hin).
Qed.

(** The request of the first click. *)
Lemma service_is_never_called_without_the_key_witness :
  let key := Some (code_units "key") in
  let env := collaborators key (answering None) in
  exists r,
    reachable key (afterClick env)
    /\ In (ServiceCall r) (trace (world (afterClick env)))
    /\ apiKey r = key /\ truthyOpt key = true.
Proof.
  eexists.
  assert (Hin : In (ServiceCall _)
                  (trace (world (afterClick (collaborators (Some (code_units "key"))
                                               (answering None))))))
    by (left; reflexivity).
  split; [apply (afterClick_reachable
                   (collaborators (Some (code_units "key")) (answering None))) |].
  split; [exact Hin |].
  exact (service_is_never_called_without_the_key _ _ _
           (afterClick_reachable
              (collaborators (Some (code_units "key")) (answering None))) Hin).
Defined.

(** X17.  Over the whole life of the component at most one audio context is
    created: its creation is in the trace once when [audioContextRef] holds a
    context and not at all when it holds none. *)
Theorem audio_context_is_created_at_most_once key a :
  reachable key a ->
  contextCreations (trace (world a))
  = match audioContextRef (state (world a)) with Some _ => 1%nat | None => 0%nat end
  /\ (contextCreations (trace (world a)) <= 1)%nat.
Proof.
  intro Hreach. destruct (reachable_resources key a Hreach) as (_ & Hcount & _).
  split; [exact Hcount |]. rewrite Hcount.
  destruct (audioContextRef (state (world a))); lia.
Qed.

(** X18.  The Play button never fails to play: whenever a buffer is stored,
    an audio context is there too, and [playAudio] starts the playback of that
    buffer. *)
Theorem play_button_always_plays key a buffer :
  reachable key a ->
  audioBuffer (state (world a)) = Some buffer ->
  (exists ctx, audioContextRef (state (world a)) = Some ctx)
  /\ playAudio (world a) = emit (PlaybackStarted buffer) (world a).
Proof.
  intros Hreach Hbuf. destruct (reachable_resources key a Hreach) as (_ & _ & Hctx).
  destruct (Hctx buffer Hbuf) as [ctx Href].
  split; [eauto |]. unfold playAudio. now rewrite Hbuf, Href.
Qed.

(** The first run, done, with a payload of two samples. *)
Lemma afterSettling_reachable :
  let env := collaborators (Some (code_units "key"))
               (answering (Some (code_units "AID/fw=="))) in
  reachable (Some (code_units "key"))
    (afterSettling env (Ok {| candidates :=
        Some [ {| content := Some {| parts :=
          Some [ {| inlineData := Some {| data := Some (code_units "AID/fw==") |} |} ] |} |} ] |})).
Proof.
  cbv zeta.
  apply (reachable_step _ (afterClick (collaborators (Some (code_units "key"))
                                         (answering (Some (code_units "AID/fw==")))))).
  - apply (afterClick_reachable (collaborators (Some (code_units "key"))
                                   (answering (Some (code_units "AID/fw=="))))).
  - eapply (step_settle _ _ _ [] _ []); reflexivity.
Qed.

Lemma audio_context_is_created_at_most_once_witness :
  let env := collaborators (Some (code_units "key"))
               (answering (Some (code_units "AID/fw=="))) in
  let a := afterSettling env (Ok {| candidates :=
        Some [ {| content := Some {| parts :=
          Some [ {| inlineData := Some {| data := Some (code_units "AID/fw==") |} |} ] |} |} ] |}) in
  reachable (Some (code_units "key")) a
  /\ contextCreations (trace (world a))
     = match audioContextRef (state (world a)) with Some _ => 1%nat | None => 0%nat end
  /\ (contextCreations (trace (world a)) <= 1)%nat.
Proof.
  split; [exact afterSettling_reachable |].
  exact (audio_context_is_created_at_most_once _ _ afterSettling_reachable).
Defined.

Lemma play_button_always_plays_witness :
  let env := collaborators (Some (code_units "key"))
               (answering (Some (code_units "AID/fw=="))) in
  let a := afterSettling env (Ok {| candidates :=
        Some [ {| content := Some {| parts :=
          Some [ {| inlineData := Some {| data := Some (code_units "AID/fw==") |} |} ] |} |} ] |}) in
  let buffer :=
    {| sampleRate := 24000;
       channels := [[S754_finite true 8388608 (-23); S754_finite false 16776704 (-24)]] |} in
  reachable (Some (code_units "key")) a
  /\ audioBuffer (state (world a)) = Some buffer
  /\ (exists ctx, audioContextRef (state (world a)) = Some ctx)
  /\ playAudio (world a) = emit (PlaybackStarted buffer) (world a).
Proof.
  split; [exact afterSettling_reachable |]. split; [reflexivity |].
  exact (play_button_always_plays _ _ _ afterSettling_reachable eq_refl).
Defined.

(** ** What the user sees *)

(** X19.  After a failure the banner shows the message of the error, and
    nothing else of the three is on screen; an error whose message is empty
    leaves no banner at all, so that such a failure shows nothing. *)
Theorem failure_banner env w w1 request e :
  submit env w = Awaiting w1 request ->
  Raised env w1 request e ->
  let view := render (state (handleGenerateSpeech env w)) in
  errorBanner view = (if truthy (surfaced e) then Some (surfaced e) else None)
  /\ spinnerShown view = false
  /\ playPanelShown view = false.
Proof.
  intros Hsubmit Hraised view. subst view.
  assert (Hbuf1 : audioBuffer (state w1) = None).
  { unfold submit in Hsubmit.
    destruct (preconditionFails env (state w)); [discriminate |].
    destruct (issueRequest_issues env
                (setAudioBuffer None (setError None (setIsLoading true w))))
      as (o & _ & _ & Hrun).
    rewrite Hrun in Hsubmit. cbv zeta in Hsubmit. injection Hsubmit as <- _.
    reflexivity. }
  unfold handleGenerateSpeech. rewrite Hsubmit.
  destruct (raised_is_caught env w1 request e Hraised) as (w2 & Hsettle & Hbuf).
  rewrite Hsettle. unfold render.
  cbn [errorBanner spinnerShown playPanelShown catchFinally state setIsLoading
       setError emit onState error isLoading audioBuffer].
  rewrite Hbuf, Hbuf1. repeat split.
Qed.

(** A service failing with an [Error] of empty message. *)
Lemma failure_banner_witness :
  let env := collaborators (Some (code_units "key"))
               (fun _ => Throw (ErrorInstance "Error" [])) in
  let w := typed "Hi" in
  exists w1 request,
    submit env w = Awaiting w1 request
    /\ Raised env w1 request (ErrorInstance "Error" [])
    /\ errorBanner (render (state (handleGenerateSpeech env w))) = None
    /\ spinnerShown (render (state (handleGenerateSpeech env w))) = false
    /\ playPanelShown (render (state (handleGenerateSpeech env w))) = false.
Proof.
  do 2 eexists. split; [reflexivity |].
  match goal with
  | |- Raised ?env ?w1 ?request ?e /\ _ =>
      assert (Hraised : Raised env w1 request e) by (apply service_failed; reflexivity)
  end.
  split; [exact Hraised |].
  exact (failure_banner
           (collaborators (Some (code_units "key"))
              (fun _ => Throw (ErrorInstance "Error" [])))
           (typed "Hi") _ _ _ eq_refl Hraised).
Defined.

(** X20.  In each of the two choices exactly one button carries the classes
    of the selected option, and it is the button of the emotion, or of the
    voice, that is selected. *)
Theorem one_button_is_selected s :
  (exists b, filter buttonSelected (emotionButtons (render s)) = [b]
             /\ buttonKey b = selectedEmotion s)
  /\ (exists b, filter buttonSelected (voiceButtons (render s)) = [b]
                /\ buttonKey b = selectedVoice s).
Proof.
  unfold render; cbn [emotionButtons voiceButtons].
  split.
  - destruct (selectedEmotion s); eexists; split; reflexivity.
  - destruct (selectedVoice s); eexists; split; reflexivity.
Qed.

(** X21.  In every state the component can reach, at most one of the
    spinner, the error banner and the play panel is on screen. *)
Theorem at_most_one_panel key a :
  reachable key a ->
  let view := render (state (world a)) in
  (Nat.b2n (spinnerShown view)
   + Nat.b2n (match errorBanner view with Some _ => true | None => false end)
   + Nat.b2n (playPanelShown view) <= 1)%nat.
Proof.
  intros Hreach view. subst view.
  destruct (reachable_consistent key a Hreach) as [Hbusy Hquiet].
  unfold render; cbn [spinnerShown errorBanner playPanelShown].
  destruct (isLoading (state (world a))) eqn:Hl.
  - destruct (Hbusy eq_refl) as (Herr & Hbuf & _). rewrite Herr, Hbuf. cbn. lia.
  - destruct (Hquiet eq_refl) as (_ & [Herr | Hbuf] & _).
    + rewrite Herr. destruct (audioBuffer (state (world a))); cbn; lia.
    + rewrite Hbuf. destruct (error (state (world a))) as [message |]; [| cbn; lia].
      destruct (truthy message); cbn; lia.
Qed.

(** The component with its first request in flight. *)
Lemma at_most_one_panel_witness :
  let env := collaborators (Some (code_units "key")) (answering None) in
  reachable (Some (code_units "key")) (afterClick env)
  /\ spinnerShown (render (state (world (afterClick env)))) = true
  /\ (Nat.b2n (spinnerShown (render (state (world (afterClick env)))))
      + Nat.b2n (match errorBanner (render (state (world (afterClick env)))) with
                 | Some _ => true
                 | None => false
                 end)
      + Nat.b2n (playPanelShown (render (state (world (afterClick env))))) <= 1)%nat.
Proof.
  split; [exact (afterClick_reachable
                   (collaborators (Some (code_units "key")) (answering None))) |].
  split; [reflexivity |].
  exact (at_most_one_panel _ _
           (afterClick_reachable
              (collaborators (Some (code_units "key")) (answering None)))).
Defined.

(** X22.  Every voice has exactly one option in [VOICES], whose [voiceName]
    is the voice itself, so that the voice a request names is the [voiceName]
    of the option the user selected. *)
Theorem voice_sent_is_the_option_selected env w w1 request :
  submit env w = Awaiting w1 request ->
  exists o,
    filter (fun o => voiceStrictEquals (voiceId o) (selectedVoice (state w))) VOICES = [o]
    /\ voiceId o = selectedVoice (state w)
    /\ requestVoiceName request = voiceName o.
Proof.
  intro Hsubmit.
  assert (Hvoice : requestVoiceName request = selectedVoice (state w)).
  { unfold submit in Hsubmit.
    destruct (preconditionFails env (state w)); [discriminate |].
    destruct (issueRequest_issues env
                (setAudioBuffer None (setError None (setIsLoading true w))))
      as (o & _ & _ & Hrun).
    rewrite Hrun in Hsubmit. cbv zeta in Hsubmit. injection Hsubmit as _ <-.
    reflexivity. }
  rewrite Hvoice.
  destruct (selectedVoice (state w)); eexists; repeat split.
Qed.

(** The first click, with the voice of the first render. *)
Lemma voice_sent_is_the_option_selected_witness :
  let env := collaborators (Some (code_units "key")) (answering None) in
  let w := typed "Hi" in
  exists w1 request o,
    submit env w = Awaiting w1 request
    /\ filter (fun o => voiceStrictEquals (voiceId o) (selectedVoice (state w))) VOICES = [o]
    /\ voiceId o = selectedVoice (state w)
    /\ requestVoiceName request = voiceName o.
Proof.
  do 2 eexists.
  destruct (voice_sent_is_the_option_selected
              (collaborators (Some (code_units "key")) (answering None))
              (typed "Hi") _ _ eq_refl) as (o & H1 & H2 & H3).
  exists o. split; [reflexivity |]. repeat split; assumption.
Defined.
